(** * AmbientSoundAssistant: the audio lifecycle of [src/app/page.jsx]

    A shallow embedding of the React component [AmbientSoundApp]: its state
    hooks, its mutable refs, the callbacks it hands to the UI, to timers, to
    the media session and to the animation-frame loop, and the level
    computation of [updateAudioLevel].

    JavaScript Numbers are IEEE 754 binary64 values ([float]); the samples of
    a [Uint8Array] are bytes.  The platform (media devices, Web Audio, the
    event loop) is the part of the [World] the component does not own; what
    it answers is an input of each step.  The browser is taken to support
    media devices, Web Audio and the media session: the transition system
    starts after the support check of the mount effect has passed, and
    [mount] is that check. *)

From Stdlib Require Import ZArith List Bool String Lia.
From Stdlib.Strings Require Import Byte.
From Stdlib Require Import Uint63 Floats.

Set Warnings "-inexact-float".

Import ListNotations.

Local Open Scope Z_scope.

(** ** JavaScript numbers *)

Module JS.

Definition Number := float.

(** An integer read as a Number (exact below 2^53). *)
Definition of_Z (z : Z) : Number :=
  match z with
  | Z0 => PrimFloat.zero
  | Zpos _ => PrimFloat.of_uint63 (Uint63.of_Z z)
  | Zneg p => PrimFloat.opp (PrimFloat.of_uint63 (Uint63.of_Z (Zpos p)))
  end.

(** An element of a [Uint8Array] read as a Number. *)
Definition of_byte (b : byte) : Number := of_Z (Z.of_N (Byte.to_N b)).

Definition is_neg_zero (x : Number) : bool :=
  match PrimFloat.classify x with
  | NZero => true
  | _ => false
  end.

Definition Math_sqrt (x : Number) : Number := PrimFloat.sqrt x.

(** [Math.round]: the integer nearest to [x], ties towards +infinity;
    NaN, the infinities and the zeros are returned as they are, and a
    result that is zero keeps the sign of [x].  For a finite
    [x = (-1)^s * m * 2^e] with [e < 0] the result is
    [floor (x + 1/2)], computed exactly over the integers. *)
Definition Math_round (x : Number) : Number :=
  match Prim2SF x with
  | S754_finite s m e =>
      if 0 <=? e then x
      else
        let num := if s then Zneg m else Zpos m in
        let k := (2 * num + 2 ^ (- e)) / 2 ^ (1 - e) in
        if k =? 0 then (if s then PrimFloat.neg_zero else PrimFloat.zero)
        else of_Z k
  | _ => x
  end.

(** [Math.min] and [Math.max] on two arguments: NaN if either is NaN, and
    -0 counts as smaller than +0. *)
Definition Math_min (a b : Number) : Number :=
  if PrimFloat.is_nan a || PrimFloat.is_nan b then PrimFloat.nan
  else if PrimFloat.ltb a b then a
  else if PrimFloat.ltb b a then b
  else if is_neg_zero a then a else b.

Definition Math_max (a b : Number) : Number :=
  if PrimFloat.is_nan a || PrimFloat.is_nan b then PrimFloat.nan
  else if PrimFloat.ltb a b then b
  else if PrimFloat.ltb b a then a
  else if is_neg_zero a then b else a.

(** [a[0]] on an array of Numbers, used in arithmetic: [undefined]
    becomes NaN. *)
Definition index0 (a : list Number) : Number :=
  match a with
  | x :: _ => x
  | [] => PrimFloat.nan
  end.

End JS.

(** ** The level computation of [updateAudioLevel]

    The page's [updateAudioLevel] and the one of the hook
    [useAudioProcessor] compute the level in the same way. *)

Module Meter.

Import JS.
Local Open Scope float_scope.

(** The body of the [for] loop: [sample = (dataArray[i] - 128) / 128],
    [sum += sample * sample]. *)
Definition accumulate (sum : Number) (d : byte) : Number :=
  let sample := (of_byte d - 128) / 128 in
  sum + sample * sample.

Definition sum_of_squares (dataArray : list byte) : Number :=
  fold_left accumulate dataArray 0.

Definition rms (dataArray : list byte) : Number :=
  Math_sqrt (sum_of_squares dataArray / of_Z (Z.of_nat (List.length dataArray))).

Definition level (dataArray : list byte) : Number :=
  Math_round (rms dataArray * 100 * 3).

(** The value handed to [setAudioLevel]. *)
Definition displayed_level (dataArray : list byte) : Number :=
  Math_min 100 (level dataArray).

End Meter.

(** ** The level as the specification words it

    The root mean square of the samples on the [-1, 1] scale, times 100,
    times 3, rounded, clamped to [[0, 100]]. *)

Module LevelSpec.

Import JS.
Local Open Scope float_scope.

(** A sample on the [-1, 1] scale. *)
Definition normalized (sample : byte) : Number := (of_byte sample - 128) / 128.

Definition square (x : Number) : Number := x * x.

Definition mean (xs : list Number) : Number :=
  fold_left PrimFloat.add xs 0 / of_Z (Z.of_nat (List.length xs)).

Definition rms (buffer : list byte) : Number :=
  Math_sqrt (mean (map (fun sample => square (normalized sample)) buffer)).

Definition clamp (lo hi x : Number) : Number := Math_max lo (Math_min hi x).

Definition sampleLevel (buffer : list byte) : Number :=
  clamp 0 100 (Math_round (rms buffer * 100 * 3)).

End LevelSpec.

(** ** The component: state hooks, refs and what the platform holds *)

Import JS.

(** The [useState] values of one render.  A callback created during a render
    closes over that render's values: wherever a callback below takes a
    [State] named [render], it is the render the callback was created in,
    which need not be the latest one. *)
Record State := mkState {
  isActive : bool;
  micGain : list Number;
  outputVolume : list Number;
  audioLevel : Number;
  error : option string;
  echoCancel : bool;
  noiseSuppress : bool;
  autoGainControl : bool;
  latencyMode : string
}.

(** The [audio] member of the object passed to [getUserMedia]. *)
Record Constraints := mkConstraints {
  echoCancellation : bool;
  noiseSuppression : bool;
  autoGainControl_c : bool;
  sampleRate_c : Number;
  sampleSize : Number;
  channelCount : Number;
  latency : Number;
  volume : Number
}.

Record MediaStream := mkStream {
  stream_id : positive;
  requested : Constraints
}.

Inductive ContextState := Suspended | Running | Closed.

Record AudioContext := mkContext {
  context_id : positive;
  context_state : ContextState;
  latencyHint : string;
  sampleRate : Number
}.

Record MediaStreamSource := mkSource { source_stream : MediaStream }.

(** The nodes of the graph, each with the Numbers the component assigned to
    its parameters ([gain_value] is what was assigned to [gain.value], and
    so on).  A ref holds the node itself: an assignment through the ref is
    an assignment to the node of the running graph. *)
Record GainNode := mkGain { gain_value : Number }.

Record DynamicsCompressorNode := mkCompressor {
  threshold : Number;
  knee : Number;
  ratio : Number;
  attack : Number;
  release : Number
}.

Record BiquadFilterNode := mkFilter {
  filter_type : string;
  frequency : Number;
  Q : Number
}.

Record AnalyserNode := mkAnalyser {
  fftSize : nat;
  smoothingTimeConstant : Number
}.

Definition frequencyBinCount (a : AnalyserNode) : nat := Nat.div2 (fftSize a).

(** The [useRef] cells; [None] is [null]. *)
Record Refs := mkRefs {
  audioContextRef : option AudioContext;
  streamRef : option MediaStream;
  sourceNodeRef : option MediaStreamSource;
  gainNodeRef : option GainNode;
  outputGainRef : option GainNode;
  analyserRef : option AnalyserNode;
  compressorRef : option DynamicsCompressorNode;
  filterRef : option BiquadFilterNode;
  animationFrameRef : option positive
}.

(** What the event loop still owes the component: a suspended
    [startAmbientSound] (at [await getUserMedia] or, inside
    [createOptimizedAudioChain], at [await audioContext.resume()]), a
    [setTimeout(startAmbientSound, 100)], a [requestAnimationFrame]
    request.  Each carries the closure it will run. *)
Inductive Task :=
| AwaitGetUserMedia (render : State) (c : Constraints)
| AwaitResume (render : State) (stream : MediaStream) (ctx : AudioContext)
| Timeout (render : State)
| AnimationFrame (id : positive).

Record World := mkWorld {
  state : State;
  refs : Refs;
  tasks : list Task;
  (** capture streams with a running track: the input device is held *)
  liveStreams : list positive;
  (** audio contexts that were created and not closed *)
  openContexts : list positive;
  (** [navigator.mediaSession.playbackState] *)
  playbackState : string;
  (** the next handle the platform gives out (never zero) *)
  nextId : positive
}.

(** What the platform answers when a task runs. *)
Inductive ContextOutcome :=
| ContextThrows (name : string)
| ContextSuspended
| ContextRunning.

Record Answer := mkAnswer {
  (** [getUserMedia]: [None] resolves with a stream, [Some name] rejects
      with an error of that [name] *)
  getUserMedia_result : option string;
  (** [new AudioContext(...)] *)
  AudioContext_result : ContextOutcome;
  (** [audioContext.resume()] *)
  resume_result : option string;
  (** what [getByteTimeDomainData] writes *)
  timeDomainData : list byte
}.

(** *** Field updates *)

Definition with_state (f : State -> State) (w : World) : World :=
  mkWorld (f (state w)) (refs w) (tasks w) (liveStreams w) (openContexts w)
          (playbackState w) (nextId w).

Definition with_refs (f : Refs -> Refs) (w : World) : World :=
  mkWorld (state w) (f (refs w)) (tasks w) (liveStreams w) (openContexts w)
          (playbackState w) (nextId w).

Definition with_tasks (f : list Task -> list Task) (w : World) : World :=
  mkWorld (state w) (refs w) (f (tasks w)) (liveStreams w) (openContexts w)
          (playbackState w) (nextId w).

Definition with_liveStreams (f : list positive -> list positive) (w : World) : World :=
  mkWorld (state w) (refs w) (tasks w) (f (liveStreams w)) (openContexts w)
          (playbackState w) (nextId w).

Definition with_openContexts (f : list positive -> list positive) (w : World) : World :=
  mkWorld (state w) (refs w) (tasks w) (liveStreams w) (f (openContexts w))
          (playbackState w) (nextId w).

Definition set_playbackState (p : string) (w : World) : World :=
  mkWorld (state w) (refs w) (tasks w) (liveStreams w) (openContexts w)
          p (nextId w).

(** The platform gives out handles in sequence: [nextId w] is the one it
    gives next, and then it moves on. *)
Definition next_handle (w : World) : World :=
  mkWorld (state w) (refs w) (tasks w) (liveStreams w) (openContexts w)
          (playbackState w) (Pos.succ (nextId w)).

Definition setIsActive (b : bool) (s : State) : State :=
  mkState b (micGain s) (outputVolume s) (audioLevel s) (error s)
          (echoCancel s) (noiseSuppress s) (autoGainControl s) (latencyMode s).

Definition setMicGain (v : list Number) (s : State) : State :=
  mkState (isActive s) v (outputVolume s) (audioLevel s) (error s)
          (echoCancel s) (noiseSuppress s) (autoGainControl s) (latencyMode s).

Definition setOutputVolume (v : list Number) (s : State) : State :=
  mkState (isActive s) (micGain s) v (audioLevel s) (error s)
          (echoCancel s) (noiseSuppress s) (autoGainControl s) (latencyMode s).

Definition setAudioLevel (l : Number) (s : State) : State :=
  mkState (isActive s) (micGain s) (outputVolume s) l (error s)
          (echoCancel s) (noiseSuppress s) (autoGainControl s) (latencyMode s).

Definition setError (e : option string) (s : State) : State :=
  mkState (isActive s) (micGain s) (outputVolume s) (audioLevel s) e
          (echoCancel s) (noiseSuppress s) (autoGainControl s) (latencyMode s).

Definition setEchoCancel (b : bool) (s : State) : State :=
  mkState (isActive s) (micGain s) (outputVolume s) (audioLevel s) (error s)
          b (noiseSuppress s) (autoGainControl s) (latencyMode s).

Definition setNoiseSuppress (b : bool) (s : State) : State :=
  mkState (isActive s) (micGain s) (outputVolume s) (audioLevel s) (error s)
          (echoCancel s) b (autoGainControl s) (latencyMode s).

Definition setAutoGainControl (b : bool) (s : State) : State :=
  mkState (isActive s) (micGain s) (outputVolume s) (audioLevel s) (error s)
          (echoCancel s) (noiseSuppress s) b (latencyMode s).

Definition set_audioContextRef (v : option AudioContext) (r : Refs) : Refs :=
  mkRefs v (streamRef r) (sourceNodeRef r) (gainNodeRef r) (outputGainRef r)
         (analyserRef r) (compressorRef r) (filterRef r) (animationFrameRef r).

Definition set_streamRef (v : option MediaStream) (r : Refs) : Refs :=
  mkRefs (audioContextRef r) v (sourceNodeRef r) (gainNodeRef r) (outputGainRef r)
         (analyserRef r) (compressorRef r) (filterRef r) (animationFrameRef r).

Definition set_gainNodeRef (v : option GainNode) (r : Refs) : Refs :=
  mkRefs (audioContextRef r) (streamRef r) (sourceNodeRef r) v (outputGainRef r)
         (analyserRef r) (compressorRef r) (filterRef r) (animationFrameRef r).

Definition set_outputGainRef (v : option GainNode) (r : Refs) : Refs :=
  mkRefs (audioContextRef r) (streamRef r) (sourceNodeRef r) (gainNodeRef r) v
         (analyserRef r) (compressorRef r) (filterRef r) (animationFrameRef r).

Definition set_filterRef (v : option BiquadFilterNode) (r : Refs) : Refs :=
  mkRefs (audioContextRef r) (streamRef r) (sourceNodeRef r) (gainNodeRef r)
         (outputGainRef r) (analyserRef r) (compressorRef r) v (animationFrameRef r).

Definition set_animationFrameRef (v : option positive) (r : Refs) : Refs :=
  mkRefs (audioContextRef r) (streamRef r) (sourceNodeRef r) (gainNodeRef r)
         (outputGainRef r) (analyserRef r) (compressorRef r) (filterRef r) v.

(** ** The callbacks *)

Local Open Scope string_scope.

Definition clear_nodes (r : Refs) : Refs :=
  mkRefs (audioContextRef r) (streamRef r) None None None None None None
         (animationFrameRef r).

(** Every task but the frame request [id]. *)
Definition not_request (id : positive) (t : Task) : bool :=
  match t with
  | AnimationFrame i => negb (Pos.eqb i id)
  | _ => true
  end.

Definition cancelAnimationFrame (id : positive) (w : World) : World :=
  with_tasks (filter (not_request id)) w.

(** [stream.getTracks().forEach(track => track.stop())] *)
Definition stop_tracks (s : MediaStream) (w : World) : World :=
  with_liveStreams (remove Pos.eq_dec (stream_id s)) w.

(** [audioContext.close()] *)
Definition close_context (c : AudioContext) (w : World) : World :=
  with_openContexts (remove Pos.eq_dec (context_id c)) w.

Definition cleanup (w : World) : World :=
  let w :=
    match animationFrameRef (refs w) with
    | Some id => with_refs (set_animationFrameRef None) (cancelAnimationFrame id w)
    | None => w
    end in
  let w :=
    match streamRef (refs w) with
    | Some s => with_refs (set_streamRef None) (stop_tracks s w)
    | None => w
    end in
  let w :=
    match audioContextRef (refs w) with
    | Some c =>
        match context_state c with
        | Closed => w
        | _ => with_refs (set_audioContextRef None) (close_context c w)
        end
    | None => w
    end in
  with_refs clear_nodes w.

(** [new Uint8Array(n)] (all zero) after [getByteTimeDomainData] has
    written the platform's samples into it. *)
Definition getByteTimeDomainData (n : nat) (data : list byte) : list byte :=
  firstn n (data ++ repeat x00 n)%list.

(** [requestAnimationFrame(updateAudioLevel)]; the request's id is
    [nextId w]. *)
Definition requestAnimationFrame (w : World) : World :=
  with_tasks (fun ts => (ts ++ [AnimationFrame (nextId w)])%list) (next_handle w).

Definition updateAudioLevel (data : list byte) (w : World) : World :=
  match analyserRef (refs w) with
  | None => w
  | Some analyser =>
      let dataArray := getByteTimeDomainData (frequencyBinCount analyser) data in
      let w := with_state (setAudioLevel (Meter.displayed_level dataArray)) w in
      let id := nextId w in
      let w := requestAnimationFrame w in
      with_refs (set_animationFrameRef (Some id)) w
  end.

(** The filter cutoff for a noise-suppression flag. *)
Definition cutoff (noiseSuppress : bool) : Number :=
  if noiseSuppress then 200%float else 80%float.

(** [createOptimizedAudioChain] from the creation of the source node on:
    the nodes are created, configured from the closure's render and stored
    in the refs. *)
Definition build_chain (render : State) (stream : MediaStream)
    (audioContext : AudioContext) (w : World) : World :=
  let source := mkSource stream in
  let compressor := mkCompressor (-24)%float 30%float 12%float 0.003%float 0.25%float in
  let filter := mkFilter "highpass" (cutoff (noiseSuppress render)) 1%float in
  let analyser := mkAnalyser 512 0.3%float in
  let inputGain := mkGain (index0 (micGain render) / 100)%float in
  let outputGain := mkGain (index0 (outputVolume render) / 100)%float in
  with_refs
    (fun r => mkRefs (Some audioContext) (streamRef r) (Some source)
                     (Some inputGain) (Some outputGain) (Some analyser)
                     (Some compressor) (Some filter) (animationFrameRef r)) w.

(** The [switch (err.name)] of the [catch] block. *)
Definition errorMessage (name : string) : string :=
  "Microphone access failed. " ++
  (if name =? "NotAllowedError" then
     "Please allow microphone access in your browser settings."
   else if name =? "NotFoundError" then
     "No microphone detected. Please connect a microphone."
   else if name =? "NotReadableError" then
     "Microphone is being used by another application."
   else
     "Please check your audio settings and try again.").

Definition catch_block (name : string) (w : World) : World :=
  with_state (setError (Some (errorMessage name))) w.

(** [startAmbientSound] after [await createOptimizedAudioChain(stream)]. *)
Definition start_finish (data : list byte) (w : World) : World :=
  let w := with_state (setIsActive true) w in
  let w := updateAudioLevel data w in
  set_playbackState "playing" w.

(** The [constraints.audio] object that [startAmbientSound] builds. *)
Definition constraints_of (render : State) : Constraints :=
  mkConstraints (echoCancel render) (noiseSuppress render)
                (autoGainControl render)
                44100%float 16%float 1%float 0.01%float 1%float.

(** [startAmbientSound] up to [await getUserMedia(constraints)]. *)
Definition startAmbientSound (render : State) (w : World) : World :=
  let w := with_state (setError None) w in
  let constraints := constraints_of render in
  with_tasks (fun ts => (ts ++ [AwaitGetUserMedia render constraints])%list) w.

(** [createOptimizedAudioChain] up to [await audioContext.resume()], or to
    the end of [startAmbientSound] when the context is not suspended. *)
Definition createOptimizedAudioChain (render : State) (stream : MediaStream)
    (a : Answer) (w : World) : World :=
  match AudioContext_result a with
  | ContextThrows name => catch_block name w
  | ContextSuspended =>
      let id := nextId w in
      let w := with_openContexts (cons id) (next_handle w) in
      let audioContext := mkContext id Suspended (latencyMode render) 44100%float in
      with_tasks (fun ts => (ts ++ [AwaitResume render stream audioContext])%list) w
  | ContextRunning =>
      let id := nextId w in
      let w := with_openContexts (cons id) (next_handle w) in
      let audioContext := mkContext id Running (latencyMode render) 44100%float in
      start_finish (timeDomainData a) (build_chain render stream audioContext w)
  end.

(** [startAmbientSound] once [getUserMedia] has settled. *)
Definition getUserMedia_settled (render : State) (c : Constraints)
    (a : Answer) (w : World) : World :=
  match getUserMedia_result a with
  | Some name => catch_block name w
  | None =>
      let id := nextId w in
      let stream := mkStream id c in
      let w := with_liveStreams (cons id) (next_handle w) in
      let w := with_refs (set_streamRef (Some stream)) w in
      createOptimizedAudioChain render stream a w
  end.

(** [startAmbientSound] once [audioContext.resume()] has settled. *)
Definition resume_settled (render : State) (stream : MediaStream)
    (ctx : AudioContext) (a : Answer) (w : World) : World :=
  match resume_result a with
  | Some name => catch_block name w
  | None =>
      let audioContext :=
        mkContext (context_id ctx) Running (latencyHint ctx) (sampleRate ctx) in
      start_finish (timeDomainData a) (build_chain render stream audioContext w)
  end.

Definition stopAmbientSound (w : World) : World :=
  let w := cleanup w in
  let w := with_state (setIsActive false) w in
  let w := with_state (setAudioLevel 0%float) w in
  set_playbackState "paused" w.

Definition updateMicGain (value : list Number) (w : World) : World :=
  let w := with_state (setMicGain value) w in
  match gainNodeRef (refs w) with
  | Some _ => with_refs (set_gainNodeRef (Some (mkGain (index0 value / 100)%float))) w
  | None => w
  end.

(** [value] is an array ([inl]) or a Number ([inr]). *)
Definition updateOutputVolume (value : list Number + Number) (w : World) : World :=
  let volume := match value with inl a => index0 a | inr v => v end in
  let w := with_state (setOutputVolume [volume]) w in
  match outputGainRef (refs w) with
  | Some _ => with_refs (set_outputGainRef (Some (mkGain (volume / 100)%float))) w
  | None => w
  end.

(** [stopAmbientSound(); setTimeout(startAmbientSound, 100)]: the timer
    holds the [startAmbientSound] of the render the toggle was created in. *)
Definition restart (render : State) (w : World) : World :=
  let w := stopAmbientSound w in
  with_tasks (fun ts => (ts ++ [Timeout render])%list) w.

Definition toggleEchoCancel (render : State) (w : World) : World :=
  let w := with_state (setEchoCancel (negb (echoCancel render))) w in
  if isActive render then restart render w else w.

(** [toggleNoiseSuppress] up to and including the update of the live
    filter. *)
Definition toggleNoiseSuppress_live (render : State) (w : World) : World :=
  let w := with_state (setNoiseSuppress (negb (noiseSuppress render))) w in
  match filterRef (refs w) with
  | Some f =>
      with_refs
        (set_filterRef
           (Some (mkFilter (filter_type f)
                           (if negb (noiseSuppress render) then 200%float else 80%float)
                           (Q f)))) w
  | None => w
  end.

Definition toggleNoiseSuppress (render : State) (w : World) : World :=
  let w := toggleNoiseSuppress_live render w in
  if isActive render && negb (noiseSuppress render) then restart render w else w.

Definition toggleAutoGain (render : State) (w : World) : World :=
  let w := with_state (setAutoGainControl (negb (autoGainControl render))) w in
  if isActive render then restart render w else w.

(** *** The media-session action handlers

    They are created inside the [useEffect] whose dependency list is
    [[cleanup]]; [cleanup] never changes, so the effect runs once, at
    mount, and the handlers keep the values of the render [mount]. *)

Definition media_play (mount : State) (w : World) : World :=
  if negb (isActive mount) then startAmbientSound mount w else w.

Definition media_pause (mount : State) (w : World) : World :=
  if isActive mount then stopAmbientSound w else w.

Definition media_stop (w : World) : World :=
  let w := cleanup w in
  let w := with_state (setIsActive false) w in
  let w := with_state (setAudioLevel 0%float) w in
  set_playbackState "paused" w.

Definition media_seek (newVolume : Number) (w : World) : World :=
  let w := with_state (setOutputVolume [newVolume]) w in
  match outputGainRef (refs w) with
  | Some _ => with_refs (set_outputGainRef (Some (mkGain (newVolume / 100)%float))) w
  | None => w
  end.

Definition media_seekbackward (mount : State) (w : World) : World :=
  media_seek (Math_max 0 (index0 (outputVolume mount) - 10))%float w.

Definition media_seekforward (mount : State) (w : World) : World :=
  media_seek (Math_min 100 (index0 (outputVolume mount) + 10))%float w.

(** ** The component as a transition system *)

Definition initial_state : State :=
  mkState false [80%float] [60%float] 0%float None true true false "interactive".

Definition initial_refs : Refs :=
  mkRefs None None None None None None None None None.

Definition initial_world : World :=
  mkWorld initial_state initial_refs [] [] [] "none" 1%positive.

Inductive Event :=
(** the start/stop button: [onClick={isActive ? stopAmbientSound : startAmbientSound}] *)
| ClickStartStop
| MicGainChange (value : list Number)
| OutputVolumeChange (value : list Number)
| EchoCancelChange
| NoiseSuppressChange
| AutoGainChange
(** the media session: play, pause, stop, seekbackward, seekforward *)
| MediaPlay
| MediaPause
| MediaStop
| MediaSeekBackward
| MediaSeekForward
(** the effect's destructor *)
| Unmount
(** the event loop runs the [i]-th outstanding task *)
| RunTask (i : nat) (a : Answer).

Fixpoint remove_nth {A : Type} (i : nat) (l : list A) : list A :=
  match l, i with
  | [], _ => []
  | _ :: l', O => l'
  | x :: l', S j => x :: remove_nth j l'
  end.

Definition run_task (t : Task) (a : Answer) (w : World) : World :=
  match t with
  | AwaitGetUserMedia render c => getUserMedia_settled render c a w
  | AwaitResume render stream ctx => resume_settled render stream ctx a w
  | Timeout render => startAmbientSound render w
  | AnimationFrame _ => updateAudioLevel (timeDomainData a) w
  end.

(** The props of the UI come from the latest render, [state w]; the media
    session's handlers from the first, [initial_state]. *)
Definition step (e : Event) (w : World) : World :=
  match e with
  | ClickStartStop =>
      if isActive (state w) then stopAmbientSound w
      else startAmbientSound (state w) w
  | MicGainChange value => updateMicGain value w
  | OutputVolumeChange value => updateOutputVolume (inl value) w
  | EchoCancelChange => toggleEchoCancel (state w) w
  | NoiseSuppressChange => toggleNoiseSuppress (state w) w
  | AutoGainChange => toggleAutoGain (state w) w
  | MediaPlay => media_play initial_state w
  | MediaPause => media_pause initial_state w
  | MediaStop => media_stop w
  | MediaSeekBackward => media_seekbackward initial_state w
  | MediaSeekForward => media_seekforward initial_state w
  | Unmount => cleanup w
  | RunTask i a =>
      match nth_error (tasks w) i with
      | Some t => run_task t a (with_tasks (remove_nth i) w)
      | None => w
      end
  end.

Definition run (es : list Event) (w : World) : World :=
  fold_left (fun w e => step e w) es w.

Inductive reachable : World -> Prop :=
| reachable_initial : reachable initial_world
| reachable_step e w : reachable w -> reachable (step e w).

(** ** The error kinds of capture acquisition, as the specification names them

    The platform reports a denial as [NotAllowedError], the absence of a
    device as [NotFoundError], a device in use as [NotReadableError]; every
    other condition is an [UnknownCaptureError].  Each kind has its
    sentence. *)

Inductive CaptureError :=
| PermissionDenied
| DeviceNotFound
| DeviceBusy
| UnknownCaptureError.

Definition classify (name : string) : CaptureError :=
  if name =? "NotAllowedError" then PermissionDenied
  else if name =? "NotFoundError" then DeviceNotFound
  else if name =? "NotReadableError" then DeviceBusy
  else UnknownCaptureError.

Definition user_message (k : CaptureError) : string :=
  match k with
  | PermissionDenied =>
      "Microphone access failed. Please allow microphone access in your browser settings."
  | DeviceNotFound =>
      "Microphone access failed. No microphone detected. Please connect a microphone."
  | DeviceBusy =>
      "Microphone access failed. Microphone is being used by another application."
  | UnknownCaptureError =>
      "Microphone access failed. Please check your audio settings and try again."
  end.

(** ** Buffers, platform answers and worlds used as concrete inputs *)

(** [n] samples at the centre value. *)
Definition silence (n : nat) : list byte := repeat x80 n.

(** [pairs] times the samples 0 and 255. *)
Fixpoint alternating (pairs : nat) : list byte :=
  match pairs with
  | O => []
  | S k => x00 :: xff :: alternating k
  end.

Definition granted (data : list byte) : Answer :=
  mkAnswer None ContextRunning None data.

Definition granted_suspended : Answer :=
  mkAnswer None ContextSuspended None [].

Definition engine_fails (name : string) : Answer :=
  mkAnswer None (ContextThrows name) None [].

(** A session started from the UI and running. *)
Definition active_world : World :=
  run [ClickStartStop; RunTask 0 (granted (alternating 128))] initial_world.

(** The world left by [stopAmbientSound] after a frame request was made
    just before: the request fires there. *)
Definition stray_frame_world : World :=
  with_tasks (fun ts => (ts ++ [AnimationFrame 9])%list) (stopAmbientSound active_world).

Definition failed_build_world : World :=
  run [ClickStartStop; RunTask 0 (engine_fails "NotSupportedError")] initial_world.

(** A running session whose output volume the user has set to 30. *)
Definition quiet_session : World :=
  run [OutputVolumeChange [30%float]] active_world.

(** ** Predicates *)

(** A binary64 value that is NaN or has the sign bit [s]. *)
Definition sign_is (s : bool) (x : spec_float) : Prop :=
  match x with
  | S754_nan => True
  | S754_zero s' | S754_infinity s' | S754_finite s' _ _ => s' = s
  end.

(** Not NaN, sign bit clear. *)
Definition sf_nonneg (x : spec_float) : Prop :=
  match x with
  | S754_nan => False
  | S754_zero s | S754_infinity s | S754_finite s _ _ => s = false
  end.

(** Finite, not zero, sign bit clear. *)
Definition sf_positive (x : spec_float) : Prop :=
  match x with
  | S754_finite false _ _ => True
  | _ => False
  end.

(** A Number that is NaN or has its sign bit clear. *)
Definition nonneg (x : Number) : Prop := sign_is false (Prim2SF x).

(** A Number that is not NaN and has its sign bit clear. *)
Definition defined_nonneg (x : Number) : Prop := sf_nonneg (Prim2SF x).

Definition is_positive_finite (x : Number) : bool :=
  (0 <? x)%float && (x <? PrimFloat.infinity)%float.

(** The handles stored together by [createOptimizedAudioChain] (engine,
    source, both gains, analyser, compressor, filter) are all present, on
    an engine that is not closed, or all absent. *)
Definition graph_coherent (r : Refs) : Prop :=
  match audioContextRef r, sourceNodeRef r, gainNodeRef r, outputGainRef r,
        analyserRef r, compressorRef r, filterRef r with
  | Some c, Some _, Some _, Some _, Some _, Some _, Some _ =>
      context_state c = Running
  | None, None, None, None, None, None, None => True
  | _, _, _, _, _, _, _ => False
  end.

(** The handles of a processing session: capture, engine, input gain,
    output gain, analyser. *)
Definition all_present (r : Refs) : Prop :=
  streamRef r <> None /\ audioContextRef r <> None /\ gainNodeRef r <> None /\
  outputGainRef r <> None /\ analyserRef r <> None.

(** The largest [fftSize] an analyser can have bounds the length of
    [dataArray]; every such length is a positive finite Number. *)
Definition max_window : Z := 32768.

Fixpoint lengths_positive (count : nat) (from : Z) : bool :=
  match count with
  | O => true
  | S k => is_positive_finite (of_Z from) && lengths_positive k (from + 1)
  end.

(** The level from the sum of the squares and the length of the buffer. *)
Definition level_of_sum (sum : Number) (n : Z) : Number :=
  Math_min 100%float (Math_round (Math_sqrt (sum / of_Z n) * 100 * 3)%float).

(** The levels of the buffers of [pairs + 1], ..., [pairs + count] pairs of
    the samples 0 and 255 are all 100, [sum] being the sum of the squares
    of [pairs] pairs. *)
Fixpoint alternating_levels (count : nat) (pairs : Z) (sum : Number) : bool :=
  match count with
  | O => true
  | S c =>
      let sum' := Meter.accumulate (Meter.accumulate sum x00) xff in
      PrimFloat.Leibniz.eqb (level_of_sum sum' (2 * (pairs + 1))) 100%float
      && alternating_levels c (pairs + 1) sum'
  end.

(** ** The preferences, and the events that set them *)

(** The values the user sets with the sliders and the switches. *)
Definition preferences (s : State)
  : list Number * list Number * bool * bool * bool * string :=
  (micGain s, outputVolume s, echoCancel s, noiseSuppress s,
   autoGainControl s, latencyMode s).

(** The sliders, the switches and the two volume steps of the media
    session. *)
Definition sets_preference (e : Event) : bool :=
  match e with
  | MicGainChange _ | OutputVolumeChange _ | EchoCancelChange
  | NoiseSuppressChange | AutoGainChange | MediaSeekBackward
  | MediaSeekForward => true
  | _ => false
  end.

(** A level that can be shown as a percentage. *)
Definition valid_level (l : Number) : Prop :=
  PrimFloat.is_nan l = false /\ (0 <=? l)%float = true /\ (l <=? 100)%float = true.

(** The analyser in the refs, if any, has the window [build_chain] gave
    it. *)
Definition analyser_window (r : Refs) : Prop :=
  match analyserRef r with
  | Some a => fftSize a = 512%nat
  | None => True
  end.

(** ** The slider of [src/components/ui/Slider.jsx] *)

Module Slider.

(** The props the component reads; [onValueChange] is whether a callback
    was passed. *)
Record Props := mkProps {
  value : list Number;
  onValueChange : bool;
  max : Number;
  min : Number;
  step : Number;
  disabled : bool
}.

(** [sliderRef.current.getBoundingClientRect()], as far as it is read. *)
Record Rect := mkRect {
  left : Number;
  width : Number
}.

(** [isDragging], and the listeners the effect has put on [document]: the
    [handleMouseMove] and [handleMouseUp] of the render the effect ran in,
    with that render's [isDragging] and props. *)
Record State := mkState {
  isDragging : bool;
  listeners : option (bool * Props)
}.

Definition initial : State := mkState false None.

(** [current] is [sliderRef.current] with its rectangle, or [None] for
    [null]; the result is what [onValueChange] is called with, if it is
    called. *)
Definition updateValue (p : Props) (clientX : Number) (current : option Rect)
  : option (list Number) :=
  match current with
  | None => None
  | Some rect =>
      let percentage :=
        Math_max 0%float (Math_min 1%float ((clientX - left rect) / width rect)%float) in
      let newValue :=
        (Math_round ((min p + percentage * (max p - min p)) / step p) * step p)%float in
      if onValueChange p then Some [newValue] else None
  end.

Definition handleMouseDown (p : Props) (s : State) (clientX : Number)
    (current : option Rect) : State * option (list Number) :=
  if disabled p then (s, None)
  else (mkState true (listeners s), updateValue p clientX current).

(** [isDragging] and [p] are those of the listener's render. *)
Definition handleMouseMove (isDragging : bool) (p : Props) (clientX : Number)
    (current : option Rect) : option (list Number) :=
  if negb isDragging || disabled p then None
  else updateValue p clientX current.

Definition handleMouseUp (s : State) : State :=
  mkState false (listeners s).

(** The effect with dependency [[isDragging]], run after a render with
    props [p]: when [isDragging] has changed, the listeners of the
    previous run are removed, and new ones are added if it is now true. *)
Definition effect (p : Props) (before after : State) : State :=
  if Bool.eqb (isDragging before) (isDragging after) then after
  else if isDragging after then mkState true (Some (true, p))
  else mkState false None.

Inductive Event :=
(** [onMouseDown] on the slider, whose latest render had the props [p] *)
| MouseDown (p : Props) (clientX : Number) (current : option Rect)
(** [mousemove] and [mouseup] on [document] *)
| MouseMove (clientX : Number) (current : option Rect)
| MouseUp.

(** The render that follows a mouse-down is taken with the props [p] of
    the one before it: a call of [onValueChange] makes the parent change
    [value], which no handler reads.  The props of the render that follows
    [MouseUp] are those of the listener's render: the effect only removes
    listeners then. *)
Definition dispatch (e : Event) (s : State) : State * option (list Number) :=
  match e with
  | MouseDown p clientX current =>
      let (s', out) := handleMouseDown p s clientX current in
      (effect p s s', out)
  | MouseMove clientX current =>
      match listeners s with
      | Some (d, p) => (s, handleMouseMove d p clientX current)
      | None => (s, None)
      end
  | MouseUp =>
      match listeners s with
      | Some (_, p) => (effect p s (handleMouseUp s), None)
      | None => (s, None)
      end
  end.

(** The state after the events, and the calls of [onValueChange] in
    order. *)
Fixpoint run (es : list Event) (s : State) : State * list (list Number) :=
  match es with
  | [] => (s, [])
  | e :: es' =>
      let (s', out) := dispatch e s in
      let (s'', outs) := run es' s' in
      (s'', match out with Some v => v :: outs | None => outs end)
  end.

Inductive reachable : State -> Prop :=
| reachable_initial : reachable initial
| reachable_dispatch e s : reachable s -> reachable (fst (dispatch e s)).

(** The props the page passes: [max = 100], [step = 1], a callback; the
    rest by default. *)
Definition page_props (value : list Number) : Props :=
  mkProps value true 100%float 0%float 1%float false.

Definition is_disabled_down (e : Event) : Prop :=
  match e with
  | MouseDown p _ _ => disabled p = true
  | _ => True
  end.

End Slider.

(** ** The hook [useAudioProcessor] *)

Module Hook.

(** The hook's refs. *)
Record Refs := mkRefs {
  audioContextRef : option AudioContext;
  streamRef : option MediaStream;
  analyserRef : option AnalyserNode;
  animationFrameRef : option positive
}.

(** The hook's [audioLevel], its refs, and the platform: the frame
    requests outstanding, the streams with a running track, the contexts
    not closed, the next handle. *)
Record World := mkWorld {
  audioLevel : Number;
  refs : Refs;
  frames : list positive;
  liveStreams : list positive;
  openContexts : list positive;
  nextId : positive
}.

Definition cleanup (w : World) : World :=
  let w :=
    match animationFrameRef (refs w) with
    | Some id =>
        mkWorld (audioLevel w)
                (mkRefs (audioContextRef (refs w)) (streamRef (refs w))
                        (analyserRef (refs w)) None)
                (remove Pos.eq_dec id (frames w))
                (liveStreams w) (openContexts w) (nextId w)
    | None => w
    end in
  let w :=
    match streamRef (refs w) with
    | Some s =>
        mkWorld (audioLevel w)
                (mkRefs (audioContextRef (refs w)) None
                        (analyserRef (refs w)) (animationFrameRef (refs w)))
                (frames w)
                (remove Pos.eq_dec (stream_id s) (liveStreams w))
                (openContexts w) (nextId w)
    | None => w
    end in
  match audioContextRef (refs w) with
  | Some c =>
      match context_state c with
      | Closed => w
      | _ =>
          mkWorld (audioLevel w)
                  (mkRefs None (streamRef (refs w))
                          (analyserRef (refs w)) (animationFrameRef (refs w)))
                  (frames w) (liveStreams w)
                  (remove Pos.eq_dec (context_id c) (openContexts w))
                  (nextId w)
      end
  | None => w
  end.

Definition updateAudioLevel (data : list byte) (w : World) : World :=
  match analyserRef (refs w) with
  | None => w
  | Some analyser =>
      let dataArray := getByteTimeDomainData (frequencyBinCount analyser) data in
      mkWorld (Meter.displayed_level dataArray)
              (mkRefs (audioContextRef (refs w)) (streamRef (refs w))
                      (analyserRef (refs w)) (Some (nextId w)))
              (frames w ++ [nextId w])%list
              (liveStreams w) (openContexts w) (Pos.succ (nextId w))
  end.

End Hook.

(** ** Invariants, stated

    Of the session: the graph handles are coherent, the analyser has the
    window [build_chain] gives it, the level is a percentage, and a graph
    is only there while [isActive]. *)
Definition session_inv (w : World) : Prop :=
  graph_coherent (refs w) /\ analyser_window (refs w) /\
  valid_level (audioLevel (state w)) /\
  (analyserRef (refs w) <> None -> isActive (state w) = true).

(** The error slot is empty or holds the sentence of an error kind. *)
Definition error_known (e : option string) : Prop :=
  e = None \/ exists k, e = Some (user_message k).

(** What the component reports and holds: the error slot, the playback
    state against [isActive], the stream in [streamRef] against the
    running ones. *)
Definition report_inv (w : World) : Prop :=
  error_known (error (state w)) /\
  (isActive (state w) = true <-> playbackState w = "playing") /\
  match streamRef (refs w) with
  | Some s => In (stream_id s) (liveStreams w)
  | None => True
  end.

(** The slider's listeners are there exactly while dragging, and they are
    those of a render that was dragging and not disabled. *)
Definition slider_inv (s : Slider.State) : Prop :=
  match Slider.listeners s with
  | Some (d, p) =>
      Slider.isDragging s = true /\ d = true /\ Slider.disabled p = false
  | None => Slider.isDragging s = false
  end.

(** The part of the track the pointer is at, as [Slider.updateValue]
    computes it from the quotient [q]. *)
Definition slider_percentage (q : Number) : Number :=
  Math_max 0%float (Math_min 1%float q).

(** ** The event loop without the user

    An event that comes from the event loop alone: an outstanding task
    runs.  Every other event is an action of the user, on the page or
    through the media session, or the unmount. *)
Definition platform_event (e : Event) : Prop :=
  match e with
  | RunTask _ _ => True
  | _ => False
  end.

(** A session that runs on the stream [s]: active, every handle present,
    [s] held and its track running, and the meter's frame request the only
    outstanding work. *)
Definition session_runs (s : MediaStream) (w : World) : Prop :=
  isActive (state w) = true /\ all_present (refs w) /\
  streamRef (refs w) = Some s /\ In (stream_id s) (liveStreams w) /\
  exists id, tasks w = [AnimationFrame id].

(** ** The support check of the mount effect

    [if (!navigator.mediaDevices || !window.AudioContext)]: the effect
    sets [isSupported] to false and the error, and returns before it
    registers a handler; the component then renders no control, so that no
    event of the transition system occurs.  When the check passes the
    component is in [initial_world]. *)
Definition unsupported_message : string :=
  "Your browser doesn't support required audio features. Please use Chrome, Firefox, or Safari.".

Definition mount (mediaDevices audioContext : bool) : World :=
  if negb mediaDevices || negb audioContext
  then with_state (setError (Some unsupported_message)) initial_world
  else initial_world.

(** ** Tactics *)

(** Evaluation of the callbacks on a world given by its fields; the level
    computation, the error message and the list operations stay folded. *)
Ltac eval_callbacks :=
  cbv beta iota zeta delta
    [step run_task media_play media_pause media_stop media_seekbackward
     media_seekforward media_seek toggleEchoCancel toggleNoiseSuppress
     toggleNoiseSuppress_live toggleAutoGain restart updateMicGain
     updateOutputVolume stopAmbientSound getUserMedia_settled resume_settled
     createOptimizedAudioChain start_finish startAmbientSound catch_block
     build_chain updateAudioLevel requestAnimationFrame cleanup
     cancelAnimationFrame stop_tracks close_context next_handle clear_nodes
     with_state with_refs with_tasks with_liveStreams with_openContexts
     set_playbackState
     setIsActive setMicGain setOutputVolume setAudioLevel setError
     setEchoCancel setNoiseSuppress setAutoGainControl
     set_audioContextRef set_streamRef set_gainNodeRef set_outputGainRef
     set_filterRef set_animationFrameRef
     state refs tasks liveStreams openContexts playbackState nextId
     isActive micGain outputVolume audioLevel error echoCancel noiseSuppress
     autoGainControl latencyMode
     audioContextRef streamRef sourceNodeRef gainNodeRef outputGainRef
     analyserRef compressorRef filterRef animationFrameRef
     context_id context_state latencyHint sampleRate
     getUserMedia_result AudioContext_result resume_result timeDomainData
     initial_state negb andb].

(** The case analysis that lets [step e w] evaluate: which event, and for
    a task which one and what the platform answers. *)
Ltac case_event e ts :=
  destruct e as [| | | | | | | | | | | |?i [?acq ?ctxr ?res ?data]];
  cbv beta iota delta [step tasks];
  try (match goal with
       | |- context [nth_error ts ?i] =>
           destruct (nth_error ts i) as [[? ?|? ? ?|?|?]|];
           [destruct acq, ctxr, res ..|]
       end).

(** ** Facts about binary64 arithmetic

    The sign of a result, from the specification of the operations. *)

Local Open Scope Z_scope.

Section SpecSign.
Variables prec emax : Z.

Lemma binary_round_aux_sign :
  forall s m e l, sign_is s (binary_round_aux prec emax s m e l).
Proof.
  intros s m e l; unfold binary_round_aux.
  destruct (shr_fexp prec emax m e l) as [mrs' e'].
  destruct (shr_fexp prec emax _ e' loc_Exact) as [mrs'' e''].
  destruct (shr_m mrs''); [reflexivity | | exact I].
  destruct (e'' <=? emax - prec); reflexivity.
Qed.

Lemma binary_normalize_sign :
  forall m e, 0 <= m -> sign_is false (binary_normalize prec emax m e false).
Proof.
  intros [|p|p] e H; [reflexivity | | lia].
  unfold binary_normalize, binary_round.
  destruct (shl_align _ _ _) as [mz ez]; apply binary_round_aux_sign.
Qed.

Lemma SFmul_self_sign : forall x, sign_is false (SFmul prec emax x x).
Proof.
  intros [s| s| |s m e]; cbn; try exact I; try apply xorb_nilpotent.
  rewrite xorb_nilpotent; apply binary_round_aux_sign.
Qed.

Lemma SFmul_sign :
  forall x y, sign_is false x -> sign_is false y ->
              sign_is false (SFmul prec emax x y).
Proof.
  intros [s| s| |s m e] [s'| s'| |s' m' e']; cbn; intros; subst;
    try exact I; try reflexivity.
  apply (binary_round_aux_sign false).
Qed.

Lemma SFdiv_sign :
  forall x y, sign_is false x -> sign_is false y ->
              sign_is false (SFdiv prec emax x y).
Proof.
  intros [s| s| |s m e] [s'| s'| |s' m' e']; cbn; intros; subst;
    try exact I; try reflexivity.
  destruct (SFdiv_core_binary _ _ _ _ _ _) as [[mz ez] lz].
  apply (binary_round_aux_sign false).
Qed.

Lemma SFadd_sign :
  forall x y, sign_is false x -> sign_is false y ->
              sign_is false (SFadd prec emax x y).
Proof.
  intros [s| s| |s m e] [s'| s'| |s' m' e']; cbn; intros; subst;
    try exact I; try reflexivity.
  apply binary_normalize_sign; cbn; lia.
Qed.

Lemma SFsqrt_sign :
  forall x, sign_is false x -> sign_is false (SFsqrt prec emax x).
Proof.
  intros [s| s| |s m e]; cbn; intros; subst; try exact I; try reflexivity.
  destruct (SFsqrt_core_binary _ _ _ _) as [[mz ez] lz].
  apply (binary_round_aux_sign false).
Qed.
End SpecSign.

Lemma nonneg_mul_self : forall x, nonneg (x * x)%float.
Proof. intros x; unfold nonneg; rewrite mul_spec; apply SFmul_self_sign. Qed.

Lemma nonneg_mul : forall x y, nonneg x -> nonneg y -> nonneg (x * y)%float.
Proof. intros x y; unfold nonneg; rewrite mul_spec; apply SFmul_sign. Qed.

Lemma nonneg_div : forall x y, nonneg x -> nonneg y -> nonneg (x / y)%float.
Proof. intros x y; unfold nonneg; rewrite div_spec; apply SFdiv_sign. Qed.

Lemma nonneg_add : forall x y, nonneg x -> nonneg y -> nonneg (x + y)%float.
Proof. intros x y; unfold nonneg; rewrite add_spec; apply SFadd_sign. Qed.

Lemma nonneg_sqrt : forall x, nonneg x -> nonneg (Math_sqrt x).
Proof. intros x; unfold nonneg, Math_sqrt; rewrite sqrt_spec; apply SFsqrt_sign. Qed.

Lemma nonneg_of_Z : forall z, 0 <= z -> nonneg (of_Z z).
Proof.
  intros [|p|p] H; [reflexivity | | lia].
  unfold nonneg, of_Z; rewrite of_uint63_spec.
  apply binary_normalize_sign.
  apply Uint63.to_Z_bounded.
Qed.

Lemma nonneg_round : forall x, nonneg x -> nonneg (Math_round x).
Proof.
  intros x H; unfold Math_round.
  destruct (Prim2SF x) as [s| s| |s m e] eqn:E; try exact H.
  destruct (0 <=? e) eqn:He; [exact H|].
  unfold nonneg in H; rewrite E in H; cbn in H; subst s; cbv zeta.
  destruct (_ =? 0) eqn:Hk; [reflexivity|].
  apply nonneg_of_Z, Z.div_pos; [|apply Z.pow_pos_nonneg; lia].
  assert (0 < 2 ^ (- e)) by (apply Z.pow_pos_nonneg; lia); lia.
Qed.

Lemma nonneg_min : forall a b, nonneg a -> nonneg b -> nonneg (Math_min a b).
Proof.
  intros a b Ha Hb; unfold Math_min.
  destruct (_ || _); [exact I|].
  destruct (a <? b)%float; [exact Ha|].
  destruct (b <? a)%float; [exact Hb|].
  destruct (is_neg_zero a); assumption.
Qed.

Lemma SFcompare_refl :
  forall x, x <> S754_nan -> SFcompare x x = Some Eq.
Proof.
  intros [[]|[]| |[] m e] H; cbn; try reflexivity; try congruence;
    rewrite Z.compare_refl, Pos.compare_cont_refl; reflexivity.
Qed.

Lemma is_nan_true : forall x, PrimFloat.is_nan x = true -> x = PrimFloat.nan.
Proof.
  intros x H; unfold PrimFloat.is_nan in H; rewrite eqb_spec in H.
  apply Prim2SF_inj; change (Prim2SF PrimFloat.nan) with S754_nan.
  destruct (Prim2SF x) eqn:E; try reflexivity; exfalso;
    unfold SFeqb in H; rewrite SFcompare_refl in H by discriminate;
    discriminate.
Qed.

(** [Math.max(0, x)] is [x] when [x] is NaN or has its sign bit clear. *)
Lemma max_zero_nonneg : forall x, nonneg x -> Math_max 0%float x = x.
Proof.
  intros x H; unfold Math_max.
  destruct (PrimFloat.is_nan x) eqn:Hn.
  - rewrite orb_true_r; symmetry; apply is_nan_true, Hn.
  - change (PrimFloat.is_nan 0%float) with false; cbn [orb].
    unfold PrimFloat.is_nan in Hn.
    rewrite eqb_spec in Hn. rewrite !ltb_spec.
    change (Prim2SF 0%float) with (S754_zero false).
    change (is_neg_zero 0%float) with false.
    unfold nonneg in H.
    destruct (Prim2SF x) as [s| s| |s m e] eqn:E; cbn in H; subst; cbn;
      try reflexivity; try discriminate.
    apply Prim2SF_inj; rewrite E; reflexivity.
Qed.

Lemma SFcompare_antisym :
  forall x y, SFcompare y x = option_map CompOpp (SFcompare x y).
Proof.
  intros [[]|[]| |[] m e] [[]|[]| |[] m' e']; cbn; try reflexivity;
    rewrite (Z.compare_antisym e e'); destruct (e ?= e') eqn:E; cbn;
    try reflexivity;
    rewrite (Pos.compare_cont_antisym m m' Eq); cbn;
    try rewrite CompOpp_involutive; reflexivity.
Qed.

Lemma is_nan_false :
  forall x, PrimFloat.is_nan x = false -> Prim2SF x <> S754_nan.
Proof.
  intros x H E; unfold PrimFloat.is_nan in H; rewrite eqb_spec, E in H.
  discriminate H.
Qed.

Lemma leb_refl : forall x, PrimFloat.is_nan x = false -> (x <=? x)%float = true.
Proof.
  intros x H; rewrite leb_spec; unfold SFleb.
  rewrite SFcompare_refl by (apply is_nan_false, H); reflexivity.
Qed.

Lemma ltb_leb : forall x y, (x <? y)%float = true -> (x <=? y)%float = true.
Proof.
  intros x y; rewrite ltb_spec, leb_spec; unfold SFltb, SFleb.
  destruct (SFcompare _ _) as [[]|]; congruence.
Qed.

Lemma SFcompare_defined :
  forall x y, x <> S754_nan -> y <> S754_nan -> SFcompare x y <> None.
Proof.
  intros [[]|[]| |[] m e] [[]|[]| |[] m' e']; cbn; congruence.
Qed.

Lemma not_ltb_leb :
  forall x y, PrimFloat.is_nan x = false -> PrimFloat.is_nan y = false ->
              (x <? y)%float = false -> (y <=? x)%float = true.
Proof.
  intros x y Hx Hy; rewrite ltb_spec, leb_spec; unfold SFltb, SFleb.
  rewrite (SFcompare_antisym (Prim2SF x) (Prim2SF y)).
  pose proof (SFcompare_defined _ _ (is_nan_false x Hx) (is_nan_false y Hy)).
  destruct (SFcompare _ _) as [[]|]; cbn; congruence.
Qed.

Lemma min_le_left :
  forall a b, PrimFloat.is_nan (Math_min a b) = false ->
              (Math_min a b <=? a)%float = true.
Proof.
  intros a b; unfold Math_min.
  destruct (PrimFloat.is_nan a) eqn:Ha; [intros H; discriminate H|].
  destruct (PrimFloat.is_nan b) eqn:Hb; [intros H; discriminate H|].
  cbn [orb]; intros _.
  destruct (a <? b)%float eqn:Hab; [apply leb_refl, Ha|].
  destruct (b <? a)%float eqn:Hba; [apply ltb_leb, Hba|].
  destruct (is_neg_zero a); [apply leb_refl, Ha|].
  apply not_ltb_leb; assumption.
Qed.

Lemma zero_le_nonneg :
  forall x, nonneg x -> PrimFloat.is_nan x = false -> (0 <=? x)%float = true.
Proof.
  intros x H Hn; apply is_nan_false in Hn; rewrite leb_spec.
  change (Prim2SF 0%float) with (S754_zero false).
  unfold nonneg in H.
  destruct (Prim2SF x) as [s| s| |s m e]; cbn in H; subst; try reflexivity.
  congruence.
Qed.

Lemma fold_left_accumulate :
  forall dataArray sum,
    fold_left Meter.accumulate dataArray sum
    = fold_left PrimFloat.add
        (map (fun sample => LevelSpec.square (LevelSpec.normalized sample)) dataArray)
        sum.
Proof.
  induction dataArray as [|d l IH]; intros sum; cbn; [reflexivity | apply IH].
Qed.

Lemma nonneg_sum_of_squares :
  forall dataArray sum,
    nonneg sum -> nonneg (fold_left Meter.accumulate dataArray sum).
Proof.
  induction dataArray as [|d l IH]; intros sum H; cbn; [exact H|].
  apply IH, nonneg_add; [exact H | apply nonneg_mul_self].
Qed.

Lemma nonneg_level : forall dataArray, nonneg (Meter.level dataArray).
Proof.
  intros dataArray; unfold Meter.level, Meter.rms.
  apply nonneg_round, nonneg_mul; [apply nonneg_mul|]; try reflexivity.
  apply nonneg_sqrt, nonneg_div.
  - apply nonneg_sum_of_squares; reflexivity.
  - apply nonneg_of_Z; lia.
Qed.

(** *** No NaN on a buffer that is not empty *)

Section SpecNonneg.
Variables prec emax : Z.

Lemma shr_1_nonneg : forall mrs, 0 <= shr_m mrs -> 0 <= shr_m (shr_1 mrs).
Proof.
  intros [[|[p|p|]|p] r s]; cbn; intros H; lia.
Qed.

Lemma iter_shr_1_nonneg :
  forall p mrs, 0 <= shr_m mrs -> 0 <= shr_m (iter_pos shr_1 p mrs).
Proof.
  induction p as [p IH|p IH|]; intros mrs H; cbn.
  - apply IH, IH, shr_1_nonneg, H.
  - apply IH, IH, H.
  - apply shr_1_nonneg, H.
Qed.

Lemma shr_fexp_nonneg :
  forall m e l, 0 <= m -> 0 <= shr_m (fst (shr_fexp prec emax m e l)).
Proof.
  intros m e l H; unfold shr_fexp, shr.
  assert (H0 : 0 <= shr_m (shr_record_of_loc m l))
    by (destruct l as [|[]]; exact H).
  destruct (fexp prec emax (Zdigits2 m + e) - e); cbn [fst]; auto.
  apply iter_shr_1_nonneg, H0.
Qed.

Lemma round_nearest_even_nonneg :
  forall m l, 0 <= m -> 0 <= round_nearest_even m l.
Proof.
  intros m [|[]] H; cbn; try lia; destruct (Z.even m); lia.
Qed.

Lemma binary_round_aux_nonneg :
  forall m e l, 0 <= m -> sf_nonneg (binary_round_aux prec emax false m e l).
Proof.
  intros m e l H; unfold binary_round_aux.
  pose proof (shr_fexp_nonneg m e l H) as H1.
  destruct (shr_fexp prec emax m e l) as [mrs' e']; cbn [fst] in H1.
  pose proof (shr_fexp_nonneg _ e' loc_Exact
                (round_nearest_even_nonneg _ (loc_of_shr_record mrs') H1)) as H2.
  destruct (shr_fexp prec emax _ e' loc_Exact) as [mrs'' e'']; cbn [fst] in H2.
  destruct (shr_m mrs''); [reflexivity | | lia].
  destruct (e'' <=? emax - prec); reflexivity.
Qed.

Lemma binary_normalize_nonneg :
  forall m e, 0 <= m -> sf_nonneg (binary_normalize prec emax m e false).
Proof.
  intros [|p|p] e H; [reflexivity | | lia].
  unfold binary_normalize, binary_round.
  destruct (shl_align _ _ _) as [mz ez]; apply binary_round_aux_nonneg; lia.
Qed.

Lemma SFadd_nonneg :
  forall x y, sf_nonneg x -> sf_nonneg y -> sf_nonneg (SFadd prec emax x y).
Proof.
  intros [s| s| |s m e] [s'| s'| |s' m' e']; cbn; intros; subst;
    try contradiction; try reflexivity.
  apply binary_normalize_nonneg; cbn; lia.
Qed.

Lemma SFmul_nonneg :
  forall x y, sf_nonneg x -> sf_positive y -> sf_nonneg (SFmul prec emax x y).
Proof.
  intros [s| s| |s m e] [s'| s'| |[] m' e']; cbn; intros; subst;
    try contradiction; try reflexivity.
  apply binary_round_aux_nonneg; lia.
Qed.

Lemma SFdiv_nonneg :
  forall x y, sf_nonneg x -> sf_positive y -> sf_nonneg (SFdiv prec emax x y).
Proof.
  intros [s| s| |s m e] [s'| s'| |[] m' e']; cbn; intros; subst;
    try contradiction; try reflexivity.
  unfold SFdiv_core_binary; cbv zeta.
  match goal with
  | |- context [Z.div_eucl ?a ?b] =>
      assert (Hq : 0 <= a / b);
      [ apply Z.div_pos; [|lia]
      | unfold Z.div in Hq; destruct (Z.div_eucl a b) as [q r] ]
  end.
  - destruct (e - e' - _); [lia | | lia].
    apply Z.shiftl_nonneg; lia.
  - apply binary_round_aux_nonneg, Hq.
Qed.

Lemma SFsqrt_nonneg :
  forall x, sf_nonneg x -> sf_nonneg (SFsqrt prec emax x).
Proof.
  intros [s| s| |s m e]; cbn; intros; subst; try contradiction; try reflexivity.
  unfold SFsqrt_core_binary; cbv zeta.
  match goal with
  | |- context [Z.sqrtrem ?a] =>
      assert (Ha : 0 <= a);
      [ | pose proof (Z.sqrtrem_spec a Ha) as Hs;
          destruct (Z.sqrtrem a) as [q r] ]
  end.
  - destruct (e - 2 * _); [lia | | lia].
    apply Z.shiftl_nonneg; lia.
  - apply binary_round_aux_nonneg; lia.
Qed.
End SpecNonneg.

Lemma is_positive_finite_spec :
  forall x, is_positive_finite x = true -> sf_positive (Prim2SF x).
Proof.
  intros x; unfold is_positive_finite; rewrite !ltb_spec.
  change (Prim2SF 0%float) with (S754_zero false).
  change (Prim2SF PrimFloat.infinity) with (S754_infinity false).
  destruct (Prim2SF x) as [[]| []| |[] m e]; cbn; intros H;
    first [exact I | discriminate H].
Qed.

Lemma defined_nonneg_not_nan :
  forall x, defined_nonneg x -> PrimFloat.is_nan x = false.
Proof.
  intros x H; unfold PrimFloat.is_nan; rewrite eqb_spec; unfold SFeqb.
  rewrite SFcompare_refl; [reflexivity|].
  intros E; unfold defined_nonneg in H; rewrite E in H; exact H.
Qed.

Lemma defined_nonneg_nonneg : forall x, defined_nonneg x -> nonneg x.
Proof.
  intros x; unfold defined_nonneg, nonneg.
  destruct (Prim2SF x); cbn; auto.
Qed.

Lemma defined_add :
  forall x y, defined_nonneg x -> defined_nonneg y -> defined_nonneg (x + y)%float.
Proof. intros x y; unfold defined_nonneg; rewrite add_spec; apply SFadd_nonneg. Qed.

Lemma defined_mul :
  forall x y, defined_nonneg x -> is_positive_finite y = true ->
              defined_nonneg (x * y)%float.
Proof.
  intros x y Hx Hy; unfold defined_nonneg; rewrite mul_spec.
  apply SFmul_nonneg; [exact Hx | apply is_positive_finite_spec, Hy].
Qed.

Lemma defined_div :
  forall x y, defined_nonneg x -> is_positive_finite y = true ->
              defined_nonneg (x / y)%float.
Proof.
  intros x y Hx Hy; unfold defined_nonneg; rewrite div_spec.
  apply SFdiv_nonneg; [exact Hx | apply is_positive_finite_spec, Hy].
Qed.

Lemma defined_sqrt : forall x, defined_nonneg x -> defined_nonneg (Math_sqrt x).
Proof.
  intros x; unfold defined_nonneg, Math_sqrt; rewrite sqrt_spec.
  apply SFsqrt_nonneg.
Qed.

Lemma defined_of_Z : forall z, 0 <= z -> defined_nonneg (of_Z z).
Proof.
  intros [|p|p] H; [reflexivity | | lia].
  unfold defined_nonneg, of_Z; rewrite of_uint63_spec.
  apply binary_normalize_nonneg, Uint63.to_Z_bounded.
Qed.

Lemma defined_round : forall x, defined_nonneg x -> defined_nonneg (Math_round x).
Proof.
  intros x H; unfold Math_round.
  destruct (Prim2SF x) as [s| s| |s m e] eqn:E; try exact H.
  destruct (0 <=? e) eqn:He; [exact H|].
  unfold defined_nonneg in H; rewrite E in H; cbn in H; subst s; cbv zeta.
  destruct (_ =? 0) eqn:Hk; [reflexivity|].
  apply defined_of_Z, Z.div_pos; [|apply Z.pow_pos_nonneg; lia].
  assert (0 < 2 ^ (- e)) by (apply Z.pow_pos_nonneg; lia); lia.
Qed.

Lemma defined_min :
  forall a b, defined_nonneg a -> defined_nonneg b -> defined_nonneg (Math_min a b).
Proof.
  intros a b Ha Hb; unfold Math_min.
  rewrite (defined_nonneg_not_nan a Ha), (defined_nonneg_not_nan b Hb); cbn [orb].
  destruct (a <? b)%float; [exact Ha|].
  destruct (b <? a)%float; [exact Hb|].
  destruct (is_neg_zero a); assumption.
Qed.

(** The square of every sample is defined. *)
Lemma defined_square_sample :
  forall d : byte,
    defined_nonneg (((of_byte d - 128) / 128) * ((of_byte d - 128) / 128))%float.
Proof. intros d; destruct d; vm_compute; reflexivity. Qed.

Lemma defined_sum_of_squares :
  forall dataArray sum,
    defined_nonneg sum -> defined_nonneg (fold_left Meter.accumulate dataArray sum).
Proof.
  induction dataArray as [|d l IH]; intros sum H; cbn; [exact H|].
  apply IH, defined_add; [exact H | apply defined_square_sample].
Qed.

Lemma lengths_positive_spec :
  forall count from,
    lengths_positive count from = true ->
    forall z, from <= z < from + Z.of_nat count ->
              is_positive_finite (of_Z z) = true.
Proof.
  induction count as [|k IH]; intros from H z Hz; [lia|].
  cbn [lengths_positive] in H; apply andb_prop in H as [H1 H2].
  destruct (Z.eq_dec z from) as [->|Hne]; [exact H1|].
  apply (IH (from + 1) H2); lia.
Qed.

Lemma window_length_positive :
  forall z, 0 < z <= max_window -> is_positive_finite (of_Z z) = true.
Proof.
  intros z Hz.
  apply (lengths_positive_spec (Z.to_nat max_window) 1);
    [vm_compute; reflexivity | unfold max_window in *; lia].
Qed.

Lemma defined_level :
  forall dataArray,
    0 < Z.of_nat (List.length dataArray) <= max_window ->
    defined_nonneg (Meter.displayed_level dataArray).
Proof.
  intros dataArray Hlen; unfold Meter.displayed_level, Meter.level, Meter.rms.
  apply defined_min; [reflexivity|].
  apply defined_round, defined_mul; [apply defined_mul|]; try reflexivity.
  apply defined_sqrt, defined_div.
  - apply defined_sum_of_squares; reflexivity.
  - apply window_length_positive, Hlen.
Qed.

(** *** Silence, and samples alternating between 0 and 255 *)

Lemma sum_of_squares_silence :
  forall n, Meter.sum_of_squares (silence n) = 0%float.
Proof.
  unfold Meter.sum_of_squares, silence.
  induction n as [|n IH]; [reflexivity | exact IH].
Qed.

Lemma zero_div_positive :
  forall y, is_positive_finite y = true -> (0 / y)%float = 0%float.
Proof.
  intros y Hy; apply is_positive_finite_spec in Hy.
  apply Prim2SF_inj; rewrite div_spec.
  change (Prim2SF 0%float) with (S754_zero false).
  destruct (Prim2SF y) as [s| s| |[] m e]; cbn in Hy; try contradiction.
  reflexivity.
Qed.

Lemma silence_level :
  forall n, 0 < Z.of_nat n <= max_window ->
            Meter.displayed_level (silence n) = 0%float.
Proof.
  intros n Hn.
  unfold Meter.displayed_level, Meter.level, Meter.rms.
  rewrite sum_of_squares_silence.
  unfold silence; rewrite repeat_length.
  rewrite zero_div_positive by (apply window_length_positive; lia).
  vm_compute; reflexivity.
Qed.

Lemma alternating_snoc :
  forall k, alternating (S k) = (alternating k ++ [x00; xff])%list.
Proof.
  induction k as [|k IH]; [reflexivity|].
  change (alternating (S (S k))) with (x00 :: xff :: alternating (S k)).
  rewrite IH at 1; reflexivity.
Qed.

Lemma length_alternating :
  forall k, Z.of_nat (List.length (alternating k)) = 2 * Z.of_nat k.
Proof.
  induction k as [|k IH]; [reflexivity|].
  cbn [alternating List.length]; lia.
Qed.

Lemma alternating_levels_spec :
  forall count k,
    alternating_levels count (Z.of_nat k)
      (Meter.sum_of_squares (alternating k)) = true ->
    forall j, (k < j <= k + count)%nat ->
              Meter.displayed_level (alternating j) = 100%float.
Proof.
  induction count as [|c IH]; intros k H j Hj; [lia|].
  cbn [alternating_levels] in H; apply andb_prop in H as [H1 H2].
  assert (Hs : Meter.sum_of_squares (alternating (S k))
               = Meter.accumulate
                   (Meter.accumulate (Meter.sum_of_squares (alternating k)) x00) xff).
  { unfold Meter.sum_of_squares; rewrite alternating_snoc, fold_left_app; reflexivity. }
  destruct (Nat.eq_dec j (S k)) as [->|Hne].
  - apply Leibniz.eqb_spec in H1; rewrite <- H1.
    unfold Meter.displayed_level, Meter.level, Meter.rms, level_of_sum.
    rewrite Hs, length_alternating.
    replace (2 * Z.of_nat (S k)) with (2 * (Z.of_nat k + 1)) by lia; reflexivity.
  - apply (IH (S k)); [|lia].
    rewrite Hs; replace (Z.of_nat (S k)) with (Z.of_nat k + 1) by lia; exact H2.
Qed.

Lemma alternating_level :
  forall k, 0 < 2 * Z.of_nat k <= max_window ->
            Meter.displayed_level (alternating k) = 100%float.
Proof.
  intros k Hk.
  apply (alternating_levels_spec (Z.to_nat (max_window / 2)) 0);
    [vm_compute; reflexivity|].
  change (max_window / 2) with 16384; unfold max_window in Hk; lia.
Qed.

(** ** The level meter *)

Local Open Scope string_scope.

(** C4.  The level that [updateAudioLevel] displays is a function of the
    buffer alone, and it is the specification's level: the root mean square
    of the samples on the [-1, 1] scale, times 100, times 3, rounded and
    clamped to [[0, 100]] (the code clamps from above only; the rounded value
    is never below zero).  On every buffer of 1 to 32768 samples, the most
    an analyser can give, it is a number between 0 and 100; silence (all
    128) gives 0 and samples alternating between 0 and 255 give 100.  The
    analyser built by the component gives 256 samples. *)
Theorem displayed_level_is_sampleLevel :
  (forall dataArray,
     Meter.displayed_level dataArray = LevelSpec.sampleLevel dataArray) /\
  (forall dataArray,
     0 < Z.of_nat (List.length dataArray) <= max_window ->
     let r := Meter.displayed_level dataArray in
     PrimFloat.is_nan r = false /\
     (0 <=? r)%float = true /\ (r <=? 100)%float = true) /\
  (forall w data analyser,
     analyserRef (refs w) = Some analyser ->
     audioLevel (state (updateAudioLevel data w))
     = Meter.displayed_level
         (getByteTimeDomainData (frequencyBinCount analyser) data)) /\
  (forall n, 0 < Z.of_nat n <= max_window ->
             Meter.displayed_level (silence n) = 0%float) /\
  (forall pairs, 0 < 2 * Z.of_nat pairs <= max_window ->
                 Meter.displayed_level (alternating pairs) = 100%float) /\
  option_map frequencyBinCount (analyserRef (refs active_world)) = Some 256%nat /\
  Meter.displayed_level (silence 256) = 0%float /\
  Meter.displayed_level (alternating 128) = 100%float.
Proof.
  split; [|split; [|split; [|split; [|split; [|split; [|split]]]]]].
  - intros dataArray.
    unfold LevelSpec.sampleLevel, LevelSpec.clamp, LevelSpec.rms, LevelSpec.mean.
    rewrite <- fold_left_accumulate, length_map.
    symmetry; apply max_zero_nonneg, nonneg_min; [reflexivity | apply nonneg_level].
  - intros dataArray Hlen r.
    pose proof (defined_level dataArray Hlen) as Hd.
    pose proof (defined_nonneg_not_nan _ Hd) as Hn.
    split; [exact Hn | split].
    + apply zero_le_nonneg; [apply defined_nonneg_nonneg, Hd | exact Hn].
    + apply min_le_left, Hn.
  - intros w data analyser Ha; unfold updateAudioLevel; rewrite Ha; reflexivity.
  - exact silence_level.
  - exact alternating_level.
  - reflexivity.
  - vm_compute; reflexivity.
  - vm_compute; reflexivity.
Qed.

(** C10. When [analyserRef] is null the meter step returns at once: the
    world is unchanged (no level is set, no frame is requested), and a
    frame request that still fires in such a world only leaves the list of
    outstanding tasks.  [analyserRef] is null after every [cleanup] and
    every [stopAmbientSound]. *)
Theorem updateAudioLevel_without_analyser :
  forall (w : World) (data : list byte),
    analyserRef (refs w) = None ->
    updateAudioLevel data w = w /\
    (forall i id a,
       nth_error (tasks w) i = Some (AnimationFrame id) ->
       step (RunTask i a) w = with_tasks (remove_nth i) w) /\
    (forall w0, analyserRef (refs (cleanup w0)) = None) /\
    (forall w0, analyserRef (refs (stopAmbientSound w0)) = None).
Proof.
  intros w data Hnull; split; [|split; [|split]].
  - unfold updateAudioLevel; rewrite Hnull; reflexivity.
  - intros i id a Hi; cbn [step]; rewrite Hi; cbn [run_task].
    unfold updateAudioLevel; cbn; rewrite Hnull; reflexivity.
  - intros [st [ctx str src g og an cmp flt af] ts ls oc pb nid].
    destruct af, str, ctx as [[cid [] hint rate]|]; reflexivity.
  - intros [st [ctx str src g og an cmp flt af] ts ls oc pb nid].
    destruct af, str, ctx as [[cid [] hint rate]|]; reflexivity.
Qed.

Lemma updateAudioLevel_without_analyser_witness :
  updateAudioLevel (alternating 128) stray_frame_world = stray_frame_world /\
  step (RunTask 0 (granted (alternating 128))) stray_frame_world
  = with_tasks (remove_nth 0) stray_frame_world.
Proof.
  destruct (updateAudioLevel_without_analyser stray_frame_world (alternating 128)
              eq_refl) as (H1 & H2 & _).
  split; [exact H1 | exact (H2 0%nat 9%positive _ eq_refl)].
Defined.

(** ** Teardown *)

(** C9. [cleanup] (the teardown path) is idempotent from every state: a
    second call in a row changes nothing, whatever the refs held before, and
    from a state that holds no handle the first call already changes
    nothing. *)
Theorem cleanup_idempotent :
  forall w : World,
    cleanup (cleanup w) = cleanup w /\
    (refs w = initial_refs -> cleanup w = w).
Proof.
  intros [st [ctx str src g og an cmp flt af] ts ls oc pb nid]; split.
  - unfold cleanup; cbn.
    destruct af as [id|], str as [s|], ctx as [[cid [] hint rate]|];
      reflexivity.
  - cbn; intros H; injection H as -> -> -> -> -> -> -> -> ->.
    reflexivity.
Qed.

(** ** Live gain update *)

(** C7. Moving the mic-gain slider to [v] while a session exists updates
    the gain stage in place: its value becomes exactly [v / 100] ([0] for
    [v = 0]), the [micGain] preference becomes [[v]], and nothing else of
    the world changes (no handle is dropped, no task is added, the device
    stays held, [isActive] keeps its value).  Without a session only the
    preference changes. *)
Theorem updateMicGain_live :
  forall (w : World) (v : Number) (g : GainNode),
    gainNodeRef (refs w) = Some g ->
    let w' := step (MicGainChange [v]) w in
    micGain (state w') = [v] /\
    gainNodeRef (refs w') = Some (mkGain (v / 100)%float) /\
    w' = with_refs (set_gainNodeRef (Some (mkGain (v / 100)%float)))
                   (with_state (setMicGain [v]) w) /\
    gainNodeRef (refs (step (MicGainChange [0%float]) w)) = Some (mkGain 0%float) /\
    forall w0, gainNodeRef (refs w0) = None ->
               step (MicGainChange [v]) w0 = with_state (setMicGain [v]) w0.
Proof.
  intros w v g Hg; cbn [step]; unfold updateMicGain; cbn.
  rewrite Hg; cbn; repeat split.
  intros w0 H0; rewrite H0; reflexivity.
Qed.

Lemma updateMicGain_live_witness :
  let w' := step (MicGainChange [0%float]) active_world in
  micGain (state w') = [0%float] /\
  gainNodeRef (refs w') = Some (mkGain (0 / 100)%float) /\
  w' = with_refs (set_gainNodeRef (Some (mkGain (0 / 100)%float)))
                 (with_state (setMicGain [0%float]) active_world).
Proof.
  pose proof (updateMicGain_live active_world 0%float
                (mkGain (80 / 100)%float) eq_refl) as H.
  cbv zeta in H |- *.
  destruct H as (H1 & H2 & H3 & _).
  split; [exact H1 | split; [exact H2 | exact H3]].
Defined.

(** ** The error message of a failed acquisition *)

Lemma errorMessage_classify :
  forall name, errorMessage name = user_message (classify name).
Proof.
  intros name; unfold errorMessage, classify.
  destruct (name =? "NotAllowedError"); [reflexivity|].
  destruct (name =? "NotFoundError"); [reflexivity|].
  destruct (name =? "NotReadableError"); reflexivity.
Qed.

(** C5. Once [getUserMedia] has settled, either it resolved and the stream
    is in [streamRef] (and holds the device), or it rejected and the error
    slot holds the message of exactly one of the four kinds: the kind is a
    function of the error's name (denial, absence and busy are the three
    named ones, every other name is [UnknownCaptureError]), and the four
    messages are pairwise different. *)
Theorem acquisition_outcomes :
  forall (render : State) (c : Constraints) (a : Answer) (w : World),
    let w' := getUserMedia_settled render c a w in
    (getUserMedia_result a = None ->
       streamRef (refs w') = Some (mkStream (nextId w) c) /\
       In (nextId w) (liveStreams w')) /\
    (forall name, getUserMedia_result a = Some name ->
       w' = with_state (setError (Some (user_message (classify name)))) w) /\
    classify "NotAllowedError" = PermissionDenied /\
    classify "NotFoundError" = DeviceNotFound /\
    classify "NotReadableError" = DeviceBusy /\
    (forall name, name <> "NotAllowedError" -> name <> "NotFoundError" ->
                  name <> "NotReadableError" ->
                  classify name = UnknownCaptureError) /\
    (forall k1 k2, user_message k1 = user_message k2 -> k1 = k2).
Proof.
  intros render c a w; cbv zeta; unfold getUserMedia_settled.
  split; [|split; [|repeat split]].
  - intros ->; cbn.
    unfold createOptimizedAudioChain.
    destruct (AudioContext_result a); cbn; auto.
  - intros name ->; unfold catch_block; rewrite errorMessage_classify; reflexivity.
  - intros name H1 H2 H3; unfold classify.
    apply String.eqb_neq in H1, H2, H3; rewrite H1, H2, H3; reflexivity.
  - intros [] []; cbn; intros H; first [reflexivity | discriminate H].
Qed.

(** ** Invariants of the reachable worlds *)

Lemma cleanup_clears_refs :
  forall w, graph_coherent (refs w) -> refs (cleanup w) = initial_refs.
Proof.
  intros [st [ctx str src g og an cmp flt af] ts ls oc pb nid].
  unfold graph_coherent, cleanup; cbn; intros H.
  destruct ctx as [[cid cst hint rate]|], src, g, og, an, cmp, flt;
    try contradiction; cbn in H; subst; destruct af, str; reflexivity.
Qed.

Lemma step_graph_coherent :
  forall e w, graph_coherent (refs w) -> graph_coherent (refs (step e w)).
Proof.
  intros e [[act mg ov lvl err ec ns agc lm]
             [ctx str src g og an cmp flt af] ts ls oc pb nid].
  unfold graph_coherent at 1; cbn; intros H.
  destruct ctx as [[cid cst hint rate]|], src, g, og, an, cmp, flt;
    try contradiction; cbn in H; subst;
    destruct af, str, act, ns; case_event e ts;
    unfold graph_coherent; eval_callbacks; auto.
Qed.

Lemma reachable_graph_coherent :
  forall w, reachable w -> graph_coherent (refs w).
Proof.
  induction 1 as [|e w _ IH]; [exact I | exact (step_graph_coherent e w IH)].
Qed.

Lemma nth_error_snoc :
  forall {A : Type} (l : list A) (x : A),
    nth_error (l ++ [x]) (List.length l) = Some x.
Proof. induction l as [|y l IH]; intros x; cbn; auto. Qed.

Lemma remove_nth_snoc :
  forall {A : Type} (l : list A) (x : A),
    remove_nth (List.length l) (l ++ [x]) = l.
Proof.
  induction l as [|y l IH]; intros x; cbn; [reflexivity | now rewrite IH].
Qed.

(** ** A start whose engine cannot be built *)

(** C2 (the code at the failing input).  [getUserMedia] resolves, the
    stream is stored in [streamRef], then [new AudioContext] throws: the
    [catch] block only sets the message.  [isActive] is false and the
    preferences are untouched, but the stream is still in [streamRef] and
    its track still runs: the capture device stays held. *)
Theorem failed_build_keeps_capture :
  isActive (state failed_build_world) = false /\
  micGain (state failed_build_world) = micGain initial_state /\
  outputVolume (state failed_build_world) = outputVolume initial_state /\
  echoCancel (state failed_build_world) = echoCancel initial_state /\
  noiseSuppress (state failed_build_world) = noiseSuppress initial_state /\
  autoGainControl (state failed_build_world) = autoGainControl initial_state /\
  latencyMode (state failed_build_world) = latencyMode initial_state /\
  audioContextRef (refs failed_build_world) = None /\
  streamRef (refs failed_build_world)
  = Some (mkStream 1 (constraints_of initial_state)) /\
  liveStreams failed_build_world = [1%positive].
Proof. vm_compute. repeat split. Qed.

(** The same holds from every world: a start whose engine construction
    throws leaves the stream it acquired in [streamRef], running. *)
Lemma failed_build_keeps_capture_always :
  forall (render : State) (c : Constraints) (name : string)
         (data : list byte) (w : World),
    let w' := getUserMedia_settled render c
                (mkAnswer None (ContextThrows name) None data) w in
    streamRef (refs w') = Some (mkStream (nextId w) c) /\
    In (nextId w) (liveStreams w') /\
    isActive (state w') = isActive (state w).
Proof. intros; cbn; auto. Qed.

(** ** The media-session handlers *)

(** The handlers see [isActive = false] and [outputVolume = [60]]
    whatever the world is. *)
Lemma media_handlers_mount_render :
  forall w : World,
    step MediaPause w = w /\
    step MediaPlay w = startAmbientSound initial_state w /\
    outputVolume (state (step MediaSeekForward w)) = [70%float] /\
    outputVolume (state (step MediaSeekBackward w)) = [50%float].
Proof.
  intros [st [ctx str src g [og|] an cmp flt af] ts ls oc pb nid];
    repeat split; reflexivity.
Qed.

(** C8 (the code at the failing input).  In a running session at volume
    30: the forward step sets the volume to 70 and the live gain to
    70/100 (not 40), the backward step sets it to 50 (not 20), pause
    changes nothing (the session stays active, the device held), and
    play starts a second acquisition although a session is active.  Only
    stop does what the UI's stop does. *)
Theorem media_handlers_at_volume_30 :
  isActive (state quiet_session) = true /\
  outputVolume (state quiet_session) = [30%float] /\
  outputVolume (state (step MediaSeekForward quiet_session)) = [70%float] /\
  outputGainRef (refs (step MediaSeekForward quiet_session))
  = Some (mkGain (70 / 100)%float) /\
  outputVolume (state (step MediaSeekBackward quiet_session)) = [50%float] /\
  outputGainRef (refs (step MediaSeekBackward quiet_session))
  = Some (mkGain (50 / 100)%float) /\
  step MediaPause quiet_session = quiet_session /\
  tasks (step MediaPlay quiet_session)
  = (tasks quiet_session
     ++ [AwaitGetUserMedia initial_state (constraints_of initial_state)])%list /\
  step MediaStop quiet_session = stopAmbientSound quiet_session.
Proof. vm_compute. repeat split. Qed.

(** ** A start that is pending, and what runs meanwhile *)

Lemma filter_not_request_snoc :
  forall id ts t,
    not_request id t = true ->
    filter (not_request id) (ts ++ [t]) = (filter (not_request id) ts ++ [t])%list.
Proof.
  intros id ts t Ht; rewrite filter_app; cbn; rewrite Ht; reflexivity.
Qed.

(** [stopAmbientSound] does not cancel a pending [startAmbientSound]: its
    task stays last. *)
Lemma stop_keeps_pending_start :
  forall (render : State) (w : World),
    stopAmbientSound (startAmbientSound render w)
    = with_tasks
        (fun ts => (ts ++ [AwaitGetUserMedia render (constraints_of render)])%list)
        (with_state (setError None) (stopAmbientSound w)).
Proof.
  intros render [[act mg ov lvl err ec ns agc lm]
                   [ctx str src g og an cmp flt af] ts ls oc pb nid].
  destruct af as [id|], str as [s|], ctx as [[cid [] hint rate]|];
    eval_callbacks; try rewrite filter_not_request_snoc by reflexivity;
    reflexivity.
Qed.

(** Running the task that a world got last. *)
Lemma run_last_task :
  forall (t : Task) (a : Answer) (w : World),
    step (RunTask (List.length (tasks w)) a)
         (with_tasks (fun ts => (ts ++ [t])%list) w)
    = run_task t a w.
Proof.
  intros t a [st r ts ls oc pb nid]; cbn [step with_tasks tasks].
  rewrite nth_error_snoc; unfold with_tasks; cbn.
  rewrite remove_nth_snoc; reflexivity.
Qed.

Lemma start_then_settle :
  forall (render : State) (a : Answer) (w : World),
    step (RunTask (List.length (tasks w)) a) (startAmbientSound render w)
    = getUserMedia_settled render (constraints_of render) a
        (with_state (setError None) w).
Proof.
  intros render a w; unfold startAmbientSound; cbv zeta.
  exact (run_last_task _ a (with_state (setError None) w)).
Qed.

(** A granted acquisition on a running engine ends with every handle
    present, whatever the world was. *)
Lemma granted_running_all_present :
  forall (render : State) (c : Constraints) (a : Answer) (w : World),
    getUserMedia_result a = None ->
    AudioContext_result a = ContextRunning ->
    let w' := getUserMedia_settled render c a w in
    all_present (refs w') /\ isActive (state w') = true /\
    streamRef (refs w') = Some (mkStream (nextId w) c) /\
    In (nextId w) (liveStreams w').
Proof.
  intros render c [acq ctxr res data] w; cbn; intros -> ->.
  unfold all_present; cbn; repeat split; try discriminate; auto.
Qed.

(** A rejected acquisition only sets the message. *)
Lemma rejected_sets_message :
  forall (render : State) (c : Constraints) (a : Answer) (w : World) name,
    getUserMedia_result a = Some name ->
    getUserMedia_settled render c a w = catch_block name w.
Proof. intros render c a w name H; unfold getUserMedia_settled; now rewrite H. Qed.

(** C1, counterexample.  [startAmbientSound], then [stopAmbientSound]
    while [getUserMedia] is pending, then the acquisition resolves: the
    session is active and the device held. *)
Lemma stop_during_start_counterexample :
  let w := step (RunTask 0 (granted []))
             (stopAmbientSound (startAmbientSound initial_state initial_world)) in
  isActive (state w) = true /\
  streamRef (refs w) = Some (mkStream 1 (constraints_of initial_state)) /\
  liveStreams w = [1%positive].
Proof. vm_compute. repeat split. Qed.

(** A granted acquisition on a running engine requests one frame. *)
Lemma granted_running_tasks :
  forall (render : State) (c : Constraints) (a : Answer) (w : World),
    getUserMedia_result a = None ->
    AudioContext_result a = ContextRunning ->
    tasks (getUserMedia_settled render c a w)
    = (tasks w ++ [AnimationFrame (Pos.succ (Pos.succ (nextId w)))])%list.
Proof.
  intros render c [acq ctxr res data] [st r ts ls oc pb nid]; cbn.
  intros -> ->; reflexivity.
Qed.

(** A stop leaves nothing outstanding when nothing was. *)
Lemma stop_tasks_nil :
  forall w, tasks w = [] -> tasks (stopAmbientSound w) = [].
Proof.
  intros [st [ctx str src g og an cmp flt af] ts ls oc pb nid]; cbn [tasks].
  intros ->; destruct af, str, ctx as [[cid [] hint rate]|]; reflexivity.
Qed.

(** With nothing outstanding the event loop changes nothing. *)
Lemma run_platform_idle :
  forall es w, Forall platform_event es -> tasks w = [] -> run es w = w.
Proof.
  unfold run; induction es as [|e es IH]; intros w Hes Ht; [reflexivity|].
  inversion Hes as [|e' es' He Hes']; subst.
  destruct e; try contradiction.
  cbn [fold_left step]; rewrite Ht.
  replace (nth_error (@nil Task) i) with (@None Task) by (destruct i; reflexivity).
  exact (IH w Hes' Ht).
Qed.

(** A running session stays one while only its frames run. *)
Lemma step_session_runs :
  forall s e w, platform_event e -> session_runs s w -> session_runs s (step e w).
Proof.
  intros s e [st [ctx str src g og an cmp flt af] ts ls oc pb nid] He.
  destruct e as [| | | | | | | | | | | |i a]; try contradiction.
  unfold session_runs, all_present; cbn.
  intros (Hact & (H1 & H2 & H3 & H4 & H5) & Hs & Hin & id & ->).
  destruct i as [|i]; cbn [nth_error].
  - destruct an as [analyser|]; [|contradiction H5; reflexivity].
    eval_callbacks; cbn.
    repeat split; try assumption; eexists; reflexivity.
  - replace (nth_error (@nil Task) i) with (@None Task) by (destruct i; reflexivity).
    cbn; repeat split; try assumption; eexists; reflexivity.
Qed.

Lemma run_session_runs :
  forall s es w,
    Forall platform_event es -> session_runs s w -> session_runs s (run es w).
Proof.
  unfold run; intros s es; induction es as [|e es IH]; intros w Hes Hw; [exact Hw|].
  inversion Hes as [|e' es' He Hes']; subst.
  cbn [fold_left]; apply (IH _ Hes'), step_session_runs; assumption.
Qed.

(** C1, amended.  A [stopAmbientSound] issued while [getUserMedia] is
    pending does not cancel the start: its task is still outstanding.
    When the acquisition settles next and rejects, the controller is idle
    (inactive, every ref null, no stream added to the live ones); when it
    settles next and resolves and the engine is created running, the
    session is active and holds the new stream, whose track runs.  When
    nothing was outstanding before the start and only the event loop runs
    after the stop, without an action of the user, these states are final:
    the acquisition is the only outstanding work, and whatever runs after
    it has settled, after a rejection the controller is idle with nothing
    outstanding, and after a grant on a running engine the session is
    active and holds the new stream, the meter's frame request being the
    only outstanding work. *)
Theorem stop_during_pending_start :
  forall (w : World) (render : State),
    reachable w ->
    let c := constraints_of render in
    let w1 := stopAmbientSound (startAmbientSound render w) in
    (exists i,
      nth_error (tasks w1) i = Some (AwaitGetUserMedia render c) /\
      forall a,
        let w2 := step (RunTask i a) w1 in
        (forall name, getUserMedia_result a = Some name ->
           isActive (state w2) = false /\ refs w2 = initial_refs /\
           liveStreams w2 = liveStreams w1) /\
        (getUserMedia_result a = None ->
         AudioContext_result a = ContextRunning ->
           isActive (state w2) = true /\ all_present (refs w2) /\
           streamRef (refs w2) = Some (mkStream (nextId w1) c) /\
           In (nextId w1) (liveStreams w2))) /\
    (tasks w = [] ->
       tasks w1 = [AwaitGetUserMedia render c] /\
       forall (a : Answer) (es : list Event),
         Forall platform_event es ->
         let w3 := run (RunTask 0 a :: es) w1 in
         (forall name, getUserMedia_result a = Some name ->
            isActive (state w3) = false /\ refs w3 = initial_refs /\
            liveStreams w3 = liveStreams w1 /\ tasks w3 = []) /\
         (getUserMedia_result a = None ->
          AudioContext_result a = ContextRunning ->
            isActive (state w3) = true /\ all_present (refs w3) /\
            streamRef (refs w3) = Some (mkStream (nextId w1) c) /\
            In (nextId w1) (liveStreams w3) /\
            exists id, tasks w3 = [AnimationFrame id])).
Proof.
  intros w render Hr c w1.
  pose proof (cleanup_clears_refs w (reachable_graph_coherent w Hr)) as Hrefs.
  set (w0 := with_state (setError None) (stopAmbientSound w)).
  assert (Hw1 : w1 = with_tasks (fun ts => (ts ++ [AwaitGetUserMedia render c])%list) w0)
    by apply stop_keeps_pending_start.
  split.
  - exists (List.length (tasks w0)); split.
    + rewrite Hw1; cbn [tasks with_tasks]; apply nth_error_snoc.
    + intros a w2; unfold w2; rewrite Hw1, run_last_task; cbn [run_task].
      split.
      * intros name Hn; rewrite (rejected_sets_message _ _ _ _ _ Hn).
        split; [reflexivity | split; [exact Hrefs | reflexivity]].
      * intros Ha Hc.
        destruct (granted_running_all_present render c a w0 Ha Hc) as (H1 & H2 & H3 & H4).
        auto.
  - intros Ht.
    assert (Ht0 : tasks w0 = []) by exact (stop_tasks_nil w Ht).
    split; [rewrite Hw1; cbn [tasks with_tasks]; rewrite Ht0; reflexivity|].
    intros a es Hes w3.
    assert (Hw3 : w3 = run es (getUserMedia_settled render c a w0)).
    { unfold w3, run; cbn [fold_left]; rewrite Hw1.
      replace 0%nat with (List.length (tasks w0)) by (rewrite Ht0; reflexivity).
      rewrite run_last_task; reflexivity. }
    split.
    + intros name Hn; rewrite Hw3, Hw1, (rejected_sets_message _ _ _ _ _ Hn).
      rewrite (run_platform_idle es _ Hes) by exact Ht0.
      split; [reflexivity | split; [exact Hrefs | split; [reflexivity | exact Ht0]]].
    + intros Ha Hc.
      destruct (granted_running_all_present render c a w0 Ha Hc) as (H1 & H2 & H3 & H4).
      pose proof (granted_running_tasks render c a w0 Ha Hc) as H5.
      rewrite Ht0 in H5.
      assert (Hs : session_runs (mkStream (nextId w0) c)
                     (getUserMedia_settled render c a w0)).
      { split; [exact H2 | split; [exact H1 | split; [exact H3 | split; [exact H4|]]]].
        eexists; exact H5. }
      apply (run_session_runs _ es _ Hes) in Hs; rewrite <- Hw3 in Hs.
      destruct Hs as (K1 & K2 & K3 & K4 & K5).
      split; [exact K1 | split; [exact K2 | split; [|split; [|exact K5]]]].
      * rewrite Hw1; exact K3.
      * rewrite Hw1; exact K4.
Qed.

Lemma stop_during_pending_start_witness :
  let w1 := stopAmbientSound (startAmbientSound initial_state initial_world) in
  tasks w1 = [AwaitGetUserMedia initial_state (constraints_of initial_state)] /\
  isActive
    (state
       (run [RunTask 0 (granted []); RunTask 0 (granted (silence 256));
             RunTask 0 (granted (alternating 128))] w1))
  = true.
Proof.
  pose proof (stop_during_pending_start initial_world initial_state reachable_initial)
    as H.
  cbv zeta in H |- *; destruct H as (_ & H); specialize (H eq_refl).
  destruct H as (Ht & H); split; [exact Ht|].
  refine (proj1 (proj2 (H (granted [])
                          [RunTask 0 (granted (silence 256));
                           RunTask 0 (granted (alternating 128))] _)
                       eq_refl eq_refl)).
  repeat constructor.
Defined.

(** ** Toggling noise suppression *)

(** C3, counterexample.  In a running session with noise suppression on,
    the toggle turns the flag off and sets the live filter to 80 Hz, and
    that is all: no stop, no timer, the same stream, still active. *)
Lemma disabling_noise_suppression_counterexample :
  let w := step NoiseSuppressChange active_world in
  noiseSuppress (state active_world) = true /\
  noiseSuppress (state w) = false /\
  isActive (state w) = true /\
  tasks w = tasks active_world /\
  streamRef (refs w) = streamRef (refs active_world) /\
  audioContextRef (refs w) = audioContextRef (refs active_world) /\
  liveStreams w = liveStreams active_world.
Proof. vm_compute. repeat split. Qed.

(** C3, amended.  The toggle, from the UI, in an active session with a
    filter: the flag is flipped and the live filter's cutoff set to the new
    flag's value (200 Hz on, 80 Hz off), nothing else changing up to there.
    When the flag was on (the toggle disables), that is the whole effect.
    When it was off (the toggle enables), [stopAmbientSound] follows and a
    timer is set for the [startAmbientSound] of the render that handled the
    toggle. *)
Theorem toggleNoiseSuppress_active :
  forall (w : World) (f : BiquadFilterNode),
    isActive (state w) = true ->
    filterRef (refs w) = Some f ->
    let render := state w in
    let flag := negb (noiseSuppress render) in
    let live := toggleNoiseSuppress_live render w in
    let w' := step NoiseSuppressChange w in
    live = with_refs (set_filterRef (Some (mkFilter (filter_type f) (cutoff flag) (Q f))))
                     (with_state (setNoiseSuppress flag) w) /\
    (noiseSuppress render = true -> w' = live) /\
    (noiseSuppress render = false ->
       w' = with_tasks (fun ts => (ts ++ [Timeout render])%list) (stopAmbientSound live) /\
       isActive (state w') = false /\
       noiseSuppress (state w') = true /\
       streamRef (refs w') = None /\
       filterRef (refs w') = None).
Proof.
  intros [[act mg ov lvl err ec ns agc lm]
            [ctx str src g og an cmp flt af] ts ls oc pb nid] f.
  cbn [state refs isActive filterRef]; intros -> ->; cbv zeta.
  split; [destruct ns; reflexivity|]; split.
  - cbn [state noiseSuppress]; intros ->; reflexivity.
  - cbn [state noiseSuppress]; intros ->; split; [reflexivity|].
    destruct af, str, ctx as [[cid [] hint rate]|]; repeat split.
Qed.

Lemma toggleNoiseSuppress_active_witness :
  step NoiseSuppressChange active_world
  = toggleNoiseSuppress_live (state active_world) active_world /\
  filterRef (refs (toggleNoiseSuppress_live (state active_world) active_world))
  = Some (mkFilter "highpass" 80%float 1%float).
Proof.
  pose proof (toggleNoiseSuppress_active active_world
                (mkFilter "highpass" 200%float 1%float) eq_refl eq_refl) as H.
  cbv zeta in H; destruct H as (H1 & H2 & _).
  split; [exact (H2 eq_refl) | rewrite H1; reflexivity].
Defined.

(** What the timer of an enabling toggle then starts: the
    [startAmbientSound] it holds was created when the flag was off, so the
    stream is requested without noise suppression and the filter built at
    80 Hz, while the flag is on. *)
Lemma rebuild_after_enabling_uses_old_flag :
  let w0 := step NoiseSuppressChange active_world in
  let w := run [NoiseSuppressChange; RunTask 0 (granted []); RunTask 0 (granted [])] w0 in
  noiseSuppress (state w0) = false /\
  noiseSuppress (state w) = true /\
  isActive (state w) = true /\
  option_map frequency (filterRef (refs w)) = Some 80%float /\
  option_map (fun s => noiseSuppression (requested s)) (streamRef (refs w)) = Some false.
Proof. vm_compute. repeat split. Qed.

(** ** The handles of a session *)

(** C6, counterexample.  Teardown ([cleanup], at unmount) of a running
    session whose level is 100 clears the refs and leaves the level at
    100; a start whose engine construction throws leaves [streamRef] set
    and every other handle null; a stop while the engine's [resume()] is
    pending leaves, once it resolves, an active session whose capture
    handle is null. *)
Lemma handles_counterexample :
  (audioLevel (state (step Unmount active_world)) = 100%float /\
   refs (step Unmount active_world) = initial_refs) /\
  (streamRef (refs failed_build_world) <> None /\
   audioContextRef (refs failed_build_world) = None /\
   analyserRef (refs failed_build_world) = None) /\
  (let w := run [ClickStartStop; RunTask 0 granted_suspended; MediaStop;
                 RunTask 0 (granted [])] initial_world in
   isActive (state w) = true /\
   streamRef (refs w) = None /\
   audioContextRef (refs w) <> None).
Proof. vm_compute. repeat split; discriminate. Qed.

Lemma stop_releases_stream :
  forall (w : World) (s : MediaStream),
    streamRef (refs w) = Some s ->
    ~ In (stream_id s) (liveStreams (stopAmbientSound w)).
Proof.
  intros [st [ctx str src g og an cmp flt af] ts ls oc pb nid] s.
  cbn [refs streamRef]; intros ->.
  destruct af, ctx as [[cid [] hint rate]|]; cbn; apply remove_In.
Qed.

(** C6, amended.  From a reachable world: a [startAmbientSound] that runs
    to its end with nothing in between (the engine created running, or
    suspended and then resumed) leaves all five handles present and the
    session active; [stopAmbientSound] leaves every ref null, the level 0,
    the session inactive and the stream that was in [streamRef] stopped;
    teardown leaves every ref null and the React state, the level
    included, as it was; and the handles stored by the graph builder are
    all present or all absent. *)
Theorem session_handles :
  forall w : World,
    reachable w ->
    (forall render data,
       let n := List.length (tasks w) in
       let w1 := run [RunTask n (granted data)] (startAmbientSound render w) in
       let w2 := run [RunTask n granted_suspended; RunTask n (granted data)]
                     (startAmbientSound render w) in
       (all_present (refs w1) /\ isActive (state w1) = true) /\
       (all_present (refs w2) /\ isActive (state w2) = true)) /\
    (let s := stopAmbientSound w in
     refs s = initial_refs /\ audioLevel (state s) = 0%float /\
     isActive (state s) = false /\
     forall m, streamRef (refs w) = Some m -> ~ In (stream_id m) (liveStreams s)) /\
    (refs (step Unmount w) = initial_refs /\ state (step Unmount w) = state w) /\
    graph_coherent (refs w).
Proof.
  intros w Hr; pose proof (reachable_graph_coherent w Hr) as Hc.
  pose proof (cleanup_clears_refs w Hc) as Hrefs.
  split; [|split; [|split]]; auto.
  - intros render data n w1 w2; split.
    + unfold w1, n, run; cbn [fold_left]; rewrite start_then_settle.
      destruct (granted_running_all_present render (constraints_of render)
                  (granted data) (with_state (setError None) w) eq_refl eq_refl)
        as (H1 & H2 & _); auto.
    + unfold w2, n, run; cbn [fold_left]; rewrite start_then_settle.
      cbv beta iota zeta delta [getUserMedia_settled granted_suspended
        getUserMedia_result AudioContext_result createOptimizedAudioChain].
      match goal with
      | |- context [step _ (with_tasks ?f ?W)] =>
          change (step (RunTask (List.length (tasks w)) (granted data)) (with_tasks f W))
            with (step (RunTask (List.length (tasks W)) (granted data)) (with_tasks f W))
      end.
      rewrite run_last_task.
      unfold all_present; cbn; repeat split; discriminate.
  - cbv zeta; repeat split; auto.
    intros m Hm; exact (stop_releases_stream w m Hm).
  - split; [exact Hrefs|].
    destruct w as [st [ctx str src g og an cmp flt af] ts ls oc pb nid].
    destruct af, str, ctx as [[cid [] hint rate]|]; reflexivity.
Qed.

Lemma session_handles_witness :
  let s := stopAmbientSound active_world in
  refs s = initial_refs /\ audioLevel (state s) = 0%float /\
  isActive (state s) = false.
Proof.
  assert (Hr : reachable active_world)
    by (unfold active_world, run; cbn [fold_left]; repeat constructor).
  pose proof (session_handles active_world Hr) as (_ & H & _).
  cbv zeta in H |- *.
  destruct H as (H1 & H2 & H3 & _); auto.
Defined.

(** * Further properties of the component, the slider and the hook *)

(** ** A session started from the UI *)

Lemma reachable_active_world : reachable active_world.
Proof. unfold active_world, run; cbn [fold_left]; repeat constructor. Qed.

Lemma reachable_failed_build_world : reachable failed_build_world.
Proof. unfold failed_build_world, run; cbn [fold_left]; repeat constructor. Qed.

(** X1.  A click on the start button of a stopped component, followed by
    the grant of the microphone, builds the session from the values the
    component has then: the stream is requested with the three flags, the
    engine with the latency mode and 44100 Hz, the input and output gains
    are the slider values over 100, the filter is a high-pass at the cutoff
    of the noise-suppression flag with Q 1, the compressor has its fixed
    five parameters and the analyser a window of 512.  The session is
    active, the error slot empty, the preferences untouched, one stream
    and one engine are added and one frame is requested.  The refs are the
    same when the engine starts suspended and is then resumed. *)
Theorem ui_start_builds_from_preferences :
  forall (w : World) (data : list byte),
    isActive (state w) = false ->
    let n := List.length (tasks w) in
    let w1 := run [ClickStartStop; RunTask n (granted data)] w in
    let w2 := run [ClickStartStop; RunTask n granted_suspended;
                   RunTask n (granted data)] w in
    refs w1
    = mkRefs
        (Some (mkContext (Pos.succ (nextId w)) Running (latencyMode (state w))
                         44100%float))
        (Some (mkStream (nextId w) (constraints_of (state w))))
        (Some (mkSource (mkStream (nextId w) (constraints_of (state w)))))
        (Some (mkGain (index0 (micGain (state w)) / 100)%float))
        (Some (mkGain (index0 (outputVolume (state w)) / 100)%float))
        (Some (mkAnalyser 512 0.3%float))
        (Some (mkCompressor (-24)%float 30%float 12%float 0.003%float 0.25%float))
        (Some (mkFilter "highpass" (cutoff (noiseSuppress (state w))) 1%float))
        (Some (Pos.succ (Pos.succ (nextId w)))) /\
    refs w2 = refs w1 /\
    isActive (state w1) = true /\ isActive (state w2) = true /\
    error (state w1) = None /\
    preferences (state w1) = preferences (state w) /\
    playbackState w1 = "playing" /\
    liveStreams w1 = nextId w :: liveStreams w /\
    openContexts w1 = Pos.succ (nextId w) :: openContexts w /\
    tasks w1 = (tasks w ++ [AnimationFrame (Pos.succ (Pos.succ (nextId w)))])%list.
Proof.
  intros w data Hact n w1 w2.
  assert (Hclick : step ClickStartStop w = startAmbientSound (state w) w)
    by (cbn [step]; rewrite Hact; reflexivity).
  assert (H1 : w1 = getUserMedia_settled (state w) (constraints_of (state w))
                      (granted data) (with_state (setError None) w)).
  { unfold w1, n, run; cbn [fold_left]; rewrite Hclick.
    apply start_then_settle. }
  assert (H2 : w2 = resume_settled (state w)
                      (mkStream (nextId w) (constraints_of (state w)))
                      (mkContext (Pos.succ (nextId w)) Suspended
                                 (latencyMode (state w)) 44100%float)
                      (granted data)
                      (with_openContexts (cons (Pos.succ (nextId w)))
                         (next_handle
                            (with_refs
                               (set_streamRef
                                  (Some (mkStream (nextId w) (constraints_of (state w)))))
                               (with_liveStreams (cons (nextId w))
                                  (next_handle (with_state (setError None) w))))))).
  { unfold w2, n, run; cbn [fold_left]; rewrite Hclick.
    rewrite start_then_settle.
    cbv beta iota zeta delta [getUserMedia_settled granted_suspended
      getUserMedia_result AudioContext_result createOptimizedAudioChain].
    match goal with
    | |- context [step _ (with_tasks ?f ?W)] =>
        change (step (RunTask (List.length (tasks w)) (granted data)) (with_tasks f W))
          with (step (RunTask (List.length (tasks W)) (granted data)) (with_tasks f W))
    end.
    rewrite run_last_task; reflexivity. }
  rewrite H1, H2.
  destruct w as [st r ts ls oc pb nid]; repeat split.
Qed.

Lemma ui_start_builds_from_preferences_witness :
  let w1 := run [ClickStartStop; RunTask 0 (granted [])] initial_world in
  gainNodeRef (refs w1) = Some (mkGain (80 / 100)%float) /\
  outputGainRef (refs w1) = Some (mkGain (60 / 100)%float) /\
  filterRef (refs w1) = Some (mkFilter "highpass" 200%float 1%float) /\
  isActive (state w1) = true.
Proof.
  pose proof (ui_start_builds_from_preferences initial_world [] eq_refl) as H.
  cbv zeta in H |- *; destruct H as (H1 & _ & H2 & _).
  cbn [List.length tasks initial_world] in H1, H2.
  rewrite H1; repeat split; exact H2.
Defined.

(** ** Invariants of the session *)

Lemma valid_level_zero : valid_level 0%float.
Proof. repeat split. Qed.

Lemma length_getByteTimeDomainData :
  forall n data, List.length (getByteTimeDomainData n data) = n.
Proof.
  intros n data; unfold getByteTimeDomainData.
  rewrite length_firstn, length_app, repeat_length; lia.
Qed.

Lemma valid_displayed_level :
  forall dataArray,
    0 < Z.of_nat (List.length dataArray) <= max_window ->
    valid_level (Meter.displayed_level dataArray).
Proof.
  intros dataArray Hlen.
  pose proof (defined_level dataArray Hlen) as Hd.
  pose proof (defined_nonneg_not_nan _ Hd) as Hn.
  split; [exact Hn | split].
  - apply zero_le_nonneg; [apply defined_nonneg_nonneg, Hd | exact Hn].
  - apply min_le_left, Hn.
Qed.

Lemma valid_level_window :
  forall analyser data,
    fftSize analyser = 512%nat ->
    valid_level
      (Meter.displayed_level
         (getByteTimeDomainData (frequencyBinCount analyser) data)).
Proof.
  intros analyser data H; apply valid_displayed_level.
  rewrite length_getByteTimeDomainData; unfold frequencyBinCount; rewrite H.
  cbn; unfold max_window; lia.
Qed.

Lemma step_session_inv :
  forall e w, session_inv w -> session_inv (step e w).
Proof.
  intros e [[act mg ov lvl err ec ns agc lm]
             [ctx str src g og an cmp flt af] ts ls oc pb nid].
  unfold session_inv, graph_coherent at 1, analyser_window at 1; cbn.
  intros (Hc & Hw & Hl & Ha).
  destruct ctx as [[cid cst hint rate]|], src, g, og, an as [[fft smooth]|], cmp, flt;
    try contradiction; cbn in Hc, Hw; subst;
    [specialize (Ha ltac:(discriminate)); subst act|];
    (destruct e as [| | | | | | | | | | | |i [acq ctxr res data]];
     [ try destruct act; destruct af, str
     |
     |
     | try destruct act; destruct af, str
     | try destruct act; destruct ns, af, str
     | try destruct act; destruct af, str
     |
     |
     | destruct af, str
     |
     |
     | destruct af, str
     | cbv beta iota delta [step tasks];
       destruct (nth_error ts i) as [[? ?|? ? ?|?|?]|];
       [ destruct acq, ctxr | destruct res | | | ] ]);
    unfold graph_coherent, analyser_window; eval_callbacks;
    (split; [|split; [|split]]);
    first [ assumption | reflexivity | discriminate | exact valid_level_zero
          | (apply valid_level_window; reflexivity) | (intros; assumption)
          | (intros H; exfalso; apply H; reflexivity) | idtac ].
Qed.

Lemma reachable_session_inv : forall w, reachable w -> session_inv w.
Proof.
  induction 1 as [|e w _ IH]; [|exact (step_session_inv e w IH)].
  repeat split; intros H; exfalso; apply H; reflexivity.
Qed.

Lemma stopped_graph_absent :
  forall w,
    session_inv w ->
    isActive (state w) = false ->
    audioContextRef (refs w) = None /\ sourceNodeRef (refs w) = None /\
    gainNodeRef (refs w) = None /\ outputGainRef (refs w) = None /\
    analyserRef (refs w) = None /\ compressorRef (refs w) = None /\
    filterRef (refs w) = None.
Proof.
  intros [st [ctx str src g og an cmp flt af] ts ls oc pb nid] (Hc & _ & _ & Ha) Hact.
  unfold graph_coherent in Hc; cbn in *.
  destruct an as [a|].
  - rewrite Ha in Hact by discriminate; discriminate Hact.
  - destruct ctx, src, g, og, cmp, flt; try contradiction; repeat split.
Qed.

(** X2.  In every reachable state, a graph handle is held only while
    [isActive] is true: when the component shows the session as stopped,
    the engine, the source, both gains, the analyser, the compressor and
    the filter are all null, and the meter step does nothing. *)
Theorem stopped_holds_no_graph :
  forall w : World,
    reachable w ->
    (analyserRef (refs w) <> None -> isActive (state w) = true) /\
    (isActive (state w) = false ->
       audioContextRef (refs w) = None /\ sourceNodeRef (refs w) = None /\
       gainNodeRef (refs w) = None /\ outputGainRef (refs w) = None /\
       analyserRef (refs w) = None /\ compressorRef (refs w) = None /\
       filterRef (refs w) = None /\
       forall data, updateAudioLevel data w = w).
Proof.
  intros w Hr; pose proof (reachable_session_inv w Hr) as Hi.
  split; [exact (proj2 (proj2 (proj2 Hi)))|]; intros Hact.
  destruct (stopped_graph_absent w Hi Hact) as (H1 & H2 & H3 & H4 & H5 & H6 & H7).
  repeat (split; [assumption|]).
  intros data; unfold updateAudioLevel; rewrite H5; reflexivity.
Qed.

Lemma stopped_holds_no_graph_witness : isActive (state active_world) = true.
Proof.
  apply (proj1 (stopped_holds_no_graph active_world reachable_active_world)).
  vm_compute; discriminate.
Defined.

(** X3.  In every reachable state the level shown is a percentage: it is
    not NaN and lies between 0 and 100. *)
Theorem level_always_valid :
  forall w : World, reachable w -> valid_level (audioLevel (state w)).
Proof.
  intros w Hr; destruct (reachable_session_inv w Hr) as (_ & _ & Hl & _); exact Hl.
Qed.

Lemma level_always_valid_witness : valid_level (audioLevel (state active_world)).
Proof. exact (level_always_valid active_world reachable_active_world). Defined.

(** ** The three switches *)

(** X4.  While the component shows the session as stopped, each of the
    three switches only flips its flag: no handle, task, stream or engine
    changes, no restart is scheduled, and a second click brings back the
    state before the first. *)
Theorem switches_when_stopped :
  forall w : World,
    reachable w ->
    isActive (state w) = false ->
    step EchoCancelChange w
    = with_state (setEchoCancel (negb (echoCancel (state w)))) w /\
    step NoiseSuppressChange w
    = with_state (setNoiseSuppress (negb (noiseSuppress (state w)))) w /\
    step AutoGainChange w
    = with_state (setAutoGainControl (negb (autoGainControl (state w)))) w /\
    step EchoCancelChange (step EchoCancelChange w) = w /\
    step NoiseSuppressChange (step NoiseSuppressChange w) = w /\
    step AutoGainChange (step AutoGainChange w) = w.
Proof.
  intros w Hr Hact.
  destruct (stopped_graph_absent w (reachable_session_inv w Hr) Hact)
    as (_ & _ & _ & _ & _ & _ & Hf).
  destruct w as [[act mg ov lvl err ec ns agc lm]
                   [ctx str src g og an cmp flt af] ts ls oc pb nid].
  cbn in Hact, Hf; subst act flt.
  destruct ec, ns, agc; repeat split.
Qed.

Lemma switches_when_stopped_witness :
  step EchoCancelChange (step EchoCancelChange initial_world) = initial_world.
Proof.
  pose proof (switches_when_stopped initial_world reachable_initial eq_refl)
    as (_ & _ & _ & H & _).
  exact H.
Defined.

(** X5.  Switching echo cancellation or automatic gain during a session
    stops the session at once and schedules a start that runs the
    [startAmbientSound] of the render before the switch: when the timer
    fires and the microphone is granted, the session is active again, the
    flag shown is the new one, and the stream held was requested with the
    old one. *)
Theorem restart_after_switch_keeps_old_flags :
  forall (w : World) (a : Answer) (data : list byte),
    isActive (state w) = true ->
    (let w0 := stopAmbientSound
                 (with_state (setEchoCancel (negb (echoCancel (state w)))) w) in
     let n := List.length (tasks w0) in
     let w1 := step EchoCancelChange w in
     let w3 := run [RunTask n a; RunTask n (granted data)] w1 in
     w1 = with_tasks (fun ts => (ts ++ [Timeout (state w)])%list) w0 /\
     isActive (state w1) = false /\
     isActive (state w3) = true /\
     echoCancel (state w3) = negb (echoCancel (state w)) /\
     option_map (fun s => echoCancellation (requested s)) (streamRef (refs w3))
     = Some (echoCancel (state w))) /\
    (let w0 := stopAmbientSound
                 (with_state (setAutoGainControl (negb (autoGainControl (state w)))) w) in
     let n := List.length (tasks w0) in
     let w1 := step AutoGainChange w in
     let w3 := run [RunTask n a; RunTask n (granted data)] w1 in
     w1 = with_tasks (fun ts => (ts ++ [Timeout (state w)])%list) w0 /\
     isActive (state w1) = false /\
     isActive (state w3) = true /\
     autoGainControl (state w3) = negb (autoGainControl (state w)) /\
     option_map (fun s => autoGainControl_c (requested s)) (streamRef (refs w3))
     = Some (autoGainControl (state w))).
Proof.
  intros w a data Hact.
  assert (Hrun : forall w0 : World,
             run [RunTask (List.length (tasks w0)) a;
                  RunTask (List.length (tasks w0)) (granted data)]
                 (with_tasks (fun ts => (ts ++ [Timeout (state w)])%list) w0)
             = getUserMedia_settled (state w) (constraints_of (state w))
                 (granted data) (with_state (setError None) w0)).
  { intros w0; unfold run; cbn [fold_left].
    rewrite run_last_task; cbn [run_task].
    apply start_then_settle. }
  split; cbv zeta.
  - assert (H1 : step EchoCancelChange w
                 = with_tasks (fun ts => (ts ++ [Timeout (state w)])%list)
                     (stopAmbientSound
                        (with_state (setEchoCancel (negb (echoCancel (state w)))) w)))
      by (cbn [step]; unfold toggleEchoCancel; rewrite Hact; reflexivity).
    rewrite H1, Hrun.
    destruct w as [[act mg ov lvl err ec ns agc lm]
                     [ctx str src g og an cmp flt af] ts ls oc pb nid].
    destruct af, str, ctx as [[cid [] hint rate]|]; repeat split.
  - assert (H1 : step AutoGainChange w
                 = with_tasks (fun ts => (ts ++ [Timeout (state w)])%list)
                     (stopAmbientSound
                        (with_state (setAutoGainControl (negb (autoGainControl (state w)))) w)))
      by (cbn [step]; unfold toggleAutoGain; rewrite Hact; reflexivity).
    rewrite H1, Hrun.
    destruct w as [[act mg ov lvl err ec ns agc lm]
                     [ctx str src g og an cmp flt af] ts ls oc pb nid].
    destruct af, str, ctx as [[cid [] hint rate]|]; repeat split.
Qed.

Lemma restart_after_switch_keeps_old_flags_witness :
  let w1 := step EchoCancelChange active_world in
  let n := List.length
             (tasks (stopAmbientSound
                       (with_state
                          (setEchoCancel (negb (echoCancel (state active_world))))
                          active_world))) in
  let w3 := run [RunTask n (granted []); RunTask n (granted [])] w1 in
  echoCancel (state w3) = false /\
  option_map (fun s => echoCancellation (requested s)) (streamRef (refs w3))
  = Some true.
Proof.
  pose proof (restart_after_switch_keeps_old_flags active_world (granted []) []
                eq_refl) as (H & _).
  cbv zeta in H |- *; destruct H as (_ & _ & _ & H1 & H2).
  split; [exact H1 | exact H2].
Defined.

(** ** The output volume *)

(** X6.  [updateOutputVolume] takes an array or a Number and treats [[v]]
    as [v]; it stores [[v]] as the preference, and sets the output gain to
    [v / 100] when a session holds an output gain node, and nothing else
    changes; without a node only the preference changes. *)
Theorem updateOutputVolume_live :
  forall (w : World) (v : Number),
    updateOutputVolume (inl [v]) w = updateOutputVolume (inr v) w /\
    step (OutputVolumeChange [v]) w = updateOutputVolume (inr v) w /\
    outputVolume (state (updateOutputVolume (inr v) w)) = [v] /\
    (forall g, outputGainRef (refs w) = Some g ->
       updateOutputVolume (inr v) w
       = with_refs (set_outputGainRef (Some (mkGain (v / 100)%float)))
                   (with_state (setOutputVolume [v]) w)) /\
    (outputGainRef (refs w) = None ->
       updateOutputVolume (inr v) w = with_state (setOutputVolume [v]) w).
Proof.
  intros w v; unfold updateOutputVolume.
  split; [reflexivity | split; [reflexivity | split; [|split]]].
  - cbn; destruct (outputGainRef (refs w)); reflexivity.
  - intros g Hg; cbn; rewrite Hg; reflexivity.
  - intros Hg; cbn; rewrite Hg; reflexivity.
Qed.

(** ** What a stop cancels *)

(** X7.  A stop cancels the frame request whose id is in
    [animationFrameRef] and no other outstanding work: a pending
    [getUserMedia], a pending [resume] and a restart timer all stay
    outstanding, and so does every task when the ref is null. *)
Theorem stop_cancels_only_its_frame :
  forall w : World,
    tasks (stopAmbientSound w)
    = match animationFrameRef (refs w) with
      | Some id => filter (not_request id) (tasks w)
      | None => tasks w
      end /\
    (forall id, animationFrameRef (refs w) = Some id ->
                ~ In (AnimationFrame id) (tasks (stopAmbientSound w))) /\
    (forall t, In t (tasks w) ->
               (forall id, t <> AnimationFrame id) ->
               In t (tasks (stopAmbientSound w))).
Proof.
  intros [st [ctx str src g og an cmp flt af] ts ls oc pb nid].
  assert (Ht : tasks (stopAmbientSound
                        (mkWorld st (mkRefs ctx str src g og an cmp flt af)
                                 ts ls oc pb nid))
               = match af with
                 | Some id => filter (not_request id) ts
                 | None => ts
                 end)
    by (destruct af, str, ctx as [[cid [] hint rate]|]; reflexivity).
  split; [exact Ht | split].
  - cbn [refs animationFrameRef]; intros id ->; rewrite Ht.
    intros Hin; apply filter_In in Hin as [_ Hf].
    cbn in Hf; rewrite Pos.eqb_refl in Hf; discriminate Hf.
  - cbn [tasks]; intros t Hin Hne; rewrite Ht.
    destruct af as [id|]; [|exact Hin].
    apply filter_In; split; [exact Hin|].
    destruct t; try reflexivity.
    exfalso; exact (Hne _ eq_refl).
Qed.

(** ** One turn of the meter loop *)

Lemma length_remove_nth :
  forall {A : Type} (l : list A) (i : nat) (x : A),
    nth_error l i = Some x ->
    S (List.length (remove_nth i l)) = List.length l.
Proof.
  induction l as [|y l IH]; intros [|i] x H; cbn in *; try discriminate.
  - reflexivity.
  - now rewrite (IH i x H).
Qed.
(** X8.  When an outstanding animation frame runs while the analyser is
    held, the level shown becomes the displayed level of the analyser's
    window, the frame is replaced by one new request at the end of the
    queue, whose id is stored in [animationFrameRef], and the number of
    outstanding tasks is unchanged. *)
Theorem meter_frame_rearms :
  forall (w : World) (analyser : AnalyserNode) (i : nat) (id : positive)
         (a : Answer),
    analyserRef (refs w) = Some analyser ->
    nth_error (tasks w) i = Some (AnimationFrame id) ->
    let w' := step (RunTask i a) w in
    let shown := Meter.displayed_level
                   (getByteTimeDomainData (frequencyBinCount analyser)
                      (timeDomainData a)) in
    w' = with_refs (set_animationFrameRef (Some (nextId w)))
           (requestAnimationFrame
              (with_state (setAudioLevel shown) (with_tasks (remove_nth i) w))) /\
    audioLevel (state w') = shown /\
    tasks w' = (remove_nth i (tasks w) ++ [AnimationFrame (nextId w)])%list /\
    List.length (tasks w') = List.length (tasks w) /\
    animationFrameRef (refs w') = Some (nextId w) /\
    nextId w' = Pos.succ (nextId w).
Proof.
  intros w analyser i id a Ha Hi w' shown.
  assert (Hw : w' = with_refs (set_animationFrameRef (Some (nextId w)))
                      (requestAnimationFrame
                         (with_state (setAudioLevel shown)
                            (with_tasks (remove_nth i) w)))).
  { unfold w'; cbn [step]; rewrite Hi; cbn [run_task].
    unfold updateAudioLevel; cbn; rewrite Ha; reflexivity. }
  rewrite Hw; repeat split.
  cbn; rewrite length_app; cbn.
  rewrite <- (length_remove_nth (tasks w) i _ Hi); lia.
Qed.

Lemma meter_frame_rearms_witness :
  let w' := step (RunTask 0 (granted (silence 256))) active_world in
  audioLevel (state w') = 0%float /\
  tasks w' = [AnimationFrame 4] /\
  animationFrameRef (refs w') = Some 4%positive.
Proof.
  pose proof (meter_frame_rearms active_world (mkAnalyser 512 0.3%float) 0
                3%positive (granted (silence 256)) eq_refl eq_refl) as H.
  cbv zeta in H |- *; destruct H as (_ & H1 & H2 & _ & H3 & _).
  split; [rewrite H1; vm_compute; reflexivity | split; [exact H2 | exact H3]].
Defined.

(** ** The preferences *)

(** X9.  Only the two sliders, the three switches and the two seek
    handlers change a preference (microphone gain, output volume, the
    three flags, the latency mode): starting, stopping, the media-session
    play, pause and stop, and every continuation, timer and frame leave
    all six as they were. *)
Theorem lifecycle_keeps_preferences :
  forall (e : Event) (w : World),
    sets_preference e = false ->
    preferences (state (step e w)) = preferences (state w).
Proof.
  intros e [[act mg ov lvl err ec ns agc lm]
             [ctx str src g og an cmp flt af] ts ls oc pb nid] He.
  destruct e as [| | | | | | | | | | | |i [acq ctxr res data]];
    try discriminate He; clear He.
  1-5: destruct act, af, str, ctx as [[cid [] hint rate]|]; reflexivity.
  cbv beta iota delta [step tasks].
  destruct (nth_error ts i) as [[? ?|? ? ?|?|?]|]; [| | | |reflexivity].
  - destruct acq, ctxr; reflexivity.
  - destruct res; reflexivity.
  - reflexivity.
  - destruct an; reflexivity.
Qed.

Lemma lifecycle_keeps_preferences_witness :
  preferences (state (step ClickStartStop active_world))
  = preferences (state active_world).
Proof. exact (lifecycle_keeps_preferences ClickStartStop active_world eq_refl). Defined.

(** ** Two starts *)

Lemma nth_error_middle :
  forall {A : Type} (l r : list A) (x : A),
    nth_error (l ++ x :: r) (List.length l) = Some x.
Proof. induction l as [|y l IH]; intros r x; cbn; auto. Qed.

Lemma remove_nth_middle :
  forall {A : Type} (l r : list A) (x : A),
    remove_nth (List.length l) (l ++ x :: r) = (l ++ r)%list.
Proof.
  induction l as [|y l IH]; intros r x; cbn; [reflexivity | now rewrite IH].
Qed.

Lemma run_task_at :
  forall (t : Task) (a : Answer) (w : World) (l r : list Task),
    tasks w = (l ++ t :: r)%list ->
    step (RunTask (List.length l) a) w
    = run_task t a (with_tasks (fun _ => (l ++ r)%list) w).
Proof.
  intros t a [st rf ts ls oc pb nid] l r; cbn [tasks]; intros ->.
  cbn [step tasks]; rewrite nth_error_middle.
  unfold with_tasks; cbn; rewrite remove_nth_middle; reflexivity.
Qed.
(** X10.  Two clicks on the start button before the first acquisition
    settles start two acquisitions (the button still reads the state as
    stopped).  When both are granted the session is active and holds the
    second stream; the first stream is held by no ref and is still running,
    and a stop afterwards stops the second stream only. *)
Theorem second_start_replaces_first :
  forall (w : World) (data1 data2 : list byte),
    isActive (state w) = false ->
    let n := List.length (tasks w) in
    let w' := run [ClickStartStop; ClickStartStop;
                   RunTask n (granted data1); RunTask n (granted data2)] w in
    let first := nextId w in
    let second := Pos.succ (Pos.succ (Pos.succ (nextId w))) in
    isActive (state w') = true /\
    option_map stream_id (streamRef (refs w')) = Some second /\
    liveStreams w' = second :: first :: liveStreams w /\
    In first (liveStreams (stopAmbientSound w')) /\
    ~ In second (liveStreams (stopAmbientSound w')) /\
    refs (stopAmbientSound w') = initial_refs.
Proof.
  intros [[act mg ov lvl err ec ns agc lm] rf ts ls oc pb nid] data1 data2.
  cbn [state isActive]; intros ->; cbv zeta.
  unfold run; cbn [fold_left tasks nextId].
  set (st := mkState false mg ov lvl err ec ns agc lm).
  set (st' := mkState false mg ov lvl None ec ns agc lm).
  set (A1 := AwaitGetUserMedia st (constraints_of st)).
  set (A2 := AwaitGetUserMedia st' (constraints_of st')).
  assert (H2 : step ClickStartStop (step ClickStartStop (mkWorld st rf ts ls oc pb nid))
               = mkWorld st' rf (ts ++ A1 :: [A2])%list ls oc pb nid).
  { cbn; unfold startAmbientSound, with_tasks, with_state; cbn.
    rewrite <- app_assoc; reflexivity. }
  rewrite H2.
  rewrite (run_task_at A1 (granted data1)
             (mkWorld st' rf (ts ++ A1 :: [A2])%list ls oc pb nid) ts [A2] eq_refl).
  match goal with
  | |- context [step _ ?W] =>
      rewrite (run_task_at A2 (granted data2) W ts
                 [AnimationFrame (Pos.succ (Pos.succ nid))])
  end.
  2:{ cbn; rewrite <- app_assoc; reflexivity. }
  unfold A1, A2, st, st', granted; eval_callbacks.
  split; [reflexivity | split; [reflexivity | split; [reflexivity | split; [|split]]]].
  - cbn [stream_id]; apply in_in_remove; [lia | right; left; reflexivity].
  - cbn [stream_id]; apply remove_In.
  - reflexivity.
Qed.

Lemma second_start_replaces_first_witness :
  let w' := run [ClickStartStop; ClickStartStop;
                 RunTask 0 (granted []); RunTask 0 (granted [])] initial_world in
  isActive (state w') = true /\
  option_map stream_id (streamRef (refs w')) = Some 4%positive /\
  liveStreams w' = [4%positive; 1%positive] /\
  In 1%positive (liveStreams (stopAmbientSound w')).
Proof.
  pose proof (second_start_replaces_first initial_world [] [] eq_refl) as H.
  cbv zeta in H |- *; destruct H as (H1 & H2 & H3 & H4 & _).
  split; [exact H1 | split; [exact H2 | split; [exact H3 | exact H4]]].
Defined.

(** ** What the component reports *)

Lemma error_known_message : forall name, error_known (Some (errorMessage name)).
Proof.
  intros name; right; exists (classify name).
  now rewrite errorMessage_classify.
Qed.

Lemma step_report_inv :
  forall e w, report_inv w -> report_inv (step e w).
Proof.
  intros e [[act mg ov lvl err ec ns agc lm]
             [ctx str src g og an cmp flt af] ts ls oc pb nid].
  unfold report_inv; cbn.
  intros (He & Hp & Hs).
  destruct e as [| | | | | | | | | | | |i [acq ctxr res data]];
    [ destruct act, af, str, ctx as [[cid [] hint rate]|]
    | destruct g
    | destruct og
    | destruct act, af, str, ctx as [[cid [] hint rate]|]
    | destruct act, ns, flt, af, str, ctx as [[cid [] hint rate]|]
    | destruct act, af, str, ctx as [[cid [] hint rate]|]
    |
    |
    | destruct af, str, ctx as [[cid [] hint rate]|]
    | destruct og
    | destruct og
    | destruct af, str, ctx as [[cid [] hint rate]|]
    | cbv beta iota delta [step tasks];
      destruct (nth_error ts i) as [[? ?|? ? ?|?|?]|];
      [ destruct acq, ctxr | destruct res | | destruct an | ] ];
    eval_callbacks;
    (split; [|split]);
    first [ assumption | exact I | (left; reflexivity)
          | apply error_known_message
          | (cbn; left; reflexivity)
          | (split; intros H; first [reflexivity | discriminate H])
          | idtac ].
Qed.

Lemma reachable_report_inv : forall w, reachable w -> report_inv w.
Proof.
  induction 1 as [|e w _ IH]; [|exact (step_report_inv e w IH)].
  split; [left; reflexivity | split; [|exact I]].
  split; intros H; discriminate H.
Qed.

(** X11.  When the support check of the mount effect passes, in every
    reachable state the error slot is null or holds the sentence of one of
    the four error kinds.  When the check fails, the error slot holds the
    sentence of the unsupported browser, which is none of the four. *)
Theorem error_slot_is_known :
  mount true true = initial_world /\
  (forall w : World, reachable w -> error_known (error (state w))) /\
  (forall mediaDevices audioContext : bool,
     mediaDevices && audioContext = false ->
     error (state (mount mediaDevices audioContext)) = Some unsupported_message /\
     ~ error_known (error (state (mount mediaDevices audioContext)))).
Proof.
  split; [reflexivity | split].
  - intros w Hr; exact (proj1 (reachable_report_inv w Hr)).
  - assert (Hn : ~ error_known (Some unsupported_message)).
    { intros [H | [k H]]; [discriminate H|].
      destruct k; cbv in H; discriminate H. }
    intros [] []; intros H; try discriminate H; split; first [reflexivity | exact Hn].
Qed.

Lemma error_slot_is_known_witness : error_known (error (state failed_build_world)).
Proof.
  exact (proj1 (proj2 error_slot_is_known) failed_build_world
               reachable_failed_build_world).
Defined.

(** X12.  In every reachable state the playback state of the media session
    is [playing] exactly when [isActive] is true. *)
Theorem playback_state_follows_isActive :
  forall w : World,
    reachable w -> (isActive (state w) = true <-> playbackState w = "playing").
Proof. intros w Hr; exact (proj1 (proj2 (reachable_report_inv w Hr))). Qed.

Lemma playback_state_follows_isActive_witness :
  playbackState active_world = "playing".
Proof.
  apply (proj1 (playback_state_follows_isActive active_world reachable_active_world)).
  vm_compute; reflexivity.
Defined.

(** X13.  In every reachable state the stream in [streamRef], if any, is
    one whose track the component has not stopped. *)
Theorem held_stream_is_live :
  forall (w : World) (s : MediaStream),
    reachable w -> streamRef (refs w) = Some s -> In (stream_id s) (liveStreams w).
Proof.
  intros w s Hr Hs; pose proof (proj2 (proj2 (reachable_report_inv w Hr))) as H.
  rewrite Hs in H; exact H.
Qed.

Lemma held_stream_is_live_witness :
  In 1%positive (liveStreams failed_build_world).
Proof.
  exact (held_stream_is_live failed_build_world
           (mkStream 1 (constraints_of initial_state))
           reachable_failed_build_world eq_refl).
Defined.

(** ** The slider *)

(** X14.  A slider that is disabled at every mouse-down does nothing:
    whatever the events, it never starts dragging, never puts a listener
    on the document and never calls [onValueChange]. *)
Theorem disabled_slider_is_inert :
  forall es : list Slider.Event,
    Forall Slider.is_disabled_down es ->
    Slider.run es Slider.initial = (Slider.initial, []).
Proof.
  induction es as [|e es IH]; intros H; [reflexivity|].
  inversion H as [|e' es' He Hes]; subst.
  cbn [Slider.run].
  assert (Hd : Slider.dispatch e Slider.initial = (Slider.initial, None)).
  { destruct e as [p x cur| x cur|]; [|reflexivity..].
    cbn in He; cbn [Slider.dispatch]; unfold Slider.handleMouseDown.
    rewrite He; reflexivity. }
  rewrite Hd, (IH Hes); reflexivity.
Qed.

Lemma disabled_slider_is_inert_witness :
  Slider.run
    [Slider.MouseDown (Slider.mkProps [50%float] true 100%float 0%float 1%float true)
       30%float (Some (Slider.mkRect 0%float 200%float));
     Slider.MouseMove 60%float (Some (Slider.mkRect 0%float 200%float));
     Slider.MouseUp]
    Slider.initial
  = (Slider.initial, []).
Proof.
  apply disabled_slider_is_inert.
  repeat constructor.
Defined.

Lemma slider_dispatch_inv :
  forall e s, slider_inv s -> slider_inv (fst (Slider.dispatch e s)).
Proof.
  intros e [drag [[d p]|]]; unfold slider_inv; cbn.
  - intros (-> & -> & Hp).
    destruct e as [p' x cur| x cur|]; cbn.
    + unfold Slider.handleMouseDown.
      destruct (Slider.disabled p'); cbn; auto.
    + auto.
    + reflexivity.
  - intros ->.
    destruct e as [p' x cur| x cur|]; cbn; [|reflexivity..].
    unfold Slider.handleMouseDown.
    destruct (Slider.disabled p') eqn:E; cbn; auto.
Qed.

Lemma slider_reachable_inv : forall s, Slider.reachable s -> slider_inv s.
Proof.
  induction 1 as [|e s _ IH]; [reflexivity | exact (slider_dispatch_inv e s IH)].
Qed.
(** X15.  In every reachable state of the slider the document listeners
    are there exactly while dragging.  While not dragging a mouse move does
    nothing; while dragging it calls [updateValue] with the props of the
    render in which the drag began, which was not disabled; a mouse-up ends
    the drag and removes the listeners; a mouse-down on a slider that is
    not disabled starts a drag and calls [updateValue]. *)
Theorem slider_emits_only_while_dragging :
  forall s : Slider.State,
    Slider.reachable s ->
    (Slider.isDragging s = false ->
       forall x cur, Slider.dispatch (Slider.MouseMove x cur) s = (s, None)) /\
    (Slider.isDragging s = true ->
       exists p, Slider.disabled p = false /\
         Slider.listeners s = Some (true, p) /\
         forall x cur,
           Slider.dispatch (Slider.MouseMove x cur) s
           = (s, Slider.updateValue p x cur)) /\
    fst (Slider.dispatch Slider.MouseUp s) = Slider.initial /\
    (forall p x cur,
       Slider.disabled p = false ->
       Slider.isDragging (fst (Slider.dispatch (Slider.MouseDown p x cur) s)) = true /\
       snd (Slider.dispatch (Slider.MouseDown p x cur) s) = Slider.updateValue p x cur).
Proof.
  intros s Hr; pose proof (slider_reachable_inv s Hr) as Hi.
  destruct s as [drag [[d p]|]]; unfold slider_inv in Hi; cbn in Hi.
  - destruct Hi as (-> & -> & Hp); split; [|split; [|split]].
    + discriminate.
    + intros _; exists p; split; [exact Hp | split; [reflexivity|]].
      intros x cur; cbn; unfold Slider.handleMouseMove; rewrite Hp; reflexivity.
    + reflexivity.
    + intros p' x cur Hp'; cbn; unfold Slider.handleMouseDown; rewrite Hp'.
      split; reflexivity.
  - subst drag; split; [|split; [|split]].
    + reflexivity.
    + discriminate.
    + reflexivity.
    + intros p' x cur Hp'; cbn; unfold Slider.handleMouseDown; rewrite Hp'.
      split; reflexivity.
Qed.

Lemma slider_emits_only_while_dragging_witness :
  Slider.dispatch
    (Slider.MouseMove 60%float (Some (Slider.mkRect 0%float 200%float)))
    Slider.initial
  = (Slider.initial, None).
Proof.
  exact (proj1 (slider_emits_only_while_dragging Slider.initial
                  Slider.reachable_initial) eq_refl 60%float
               (Some (Slider.mkRect 0%float 200%float))).
Defined.

Lemma ltb_not_nan :
  forall x y, (x <? y)%float = true ->
              PrimFloat.is_nan x = false /\ PrimFloat.is_nan y = false.
Proof.
  intros x y H; rewrite ltb_spec in H; unfold PrimFloat.is_nan.
  rewrite !eqb_spec; unfold SFltb in H; unfold SFeqb.
  destruct (Prim2SF x) as [[]|[]| |[] m e] eqn:Ex;
    destruct (Prim2SF y) as [[]|[]| |[] m' e'] eqn:Ey;
    cbn in H; try discriminate H;
    rewrite !SFcompare_refl by discriminate; split; reflexivity.
Qed.

Lemma percentage_left_of_track :
  forall q, (q <? 0)%float = true -> slider_percentage q = 0%float.
Proof.
  intros q H; destruct (ltb_not_nan _ _ H) as [Hq _].
  unfold slider_percentage, Math_min, Math_max.
  change (PrimFloat.is_nan 1%float) with false; rewrite Hq; cbn [orb].
  assert (H1 : (1 <? q)%float = false /\ (q <? 1)%float = true /\
               (0 <? q)%float = false).
  { rewrite !ltb_spec in *; unfold SFltb in *.
    change (Prim2SF 0%float) with (S754_zero false) in *.
    assert (E1 : Prim2SF 1%float = S754_finite false 4503599627370496 (-52))
      by reflexivity.
    rewrite E1.
    destruct (Prim2SF q) as [[]|[]| |[] m e]; cbn in H; try discriminate H;
      repeat split. }
  destruct H1 as (H1 & H2 & H3); rewrite H1, H2.
  change (PrimFloat.is_nan 0%float) with false; rewrite Hq; cbn [orb].
  rewrite H3, H; reflexivity.
Qed.

Lemma percentage_right_of_track :
  forall q, (1 <? q)%float = true -> slider_percentage q = 1%float.
Proof.
  intros q H; destruct (ltb_not_nan _ _ H) as [_ Hq].
  unfold slider_percentage, Math_min.
  change (PrimFloat.is_nan 1%float) with false; rewrite Hq, H; cbn [orb].
  reflexivity.
Qed.

Lemma percentage_nan :
  forall q, PrimFloat.is_nan q = true -> slider_percentage q = PrimFloat.nan.
Proof.
  intros q H; apply is_nan_true in H; subst q; reflexivity.
Qed.

Lemma ltb_asym :
  forall x y, (x <? y)%float = true -> (y <? x)%float = false.
Proof.
  intros x y; rewrite !ltb_spec; unfold SFltb.
  rewrite (SFcompare_antisym (Prim2SF x) (Prim2SF y)).
  destruct (SFcompare _ _) as [[]|]; cbn; congruence.
Qed.

Lemma percentage_inside :
  forall q, (0 <? q)%float = true -> (q <? 1)%float = true ->
            slider_percentage q = q.
Proof.
  intros q H0 H1; destruct (ltb_not_nan _ _ H0) as [_ Hq].
  unfold slider_percentage, Math_min, Math_max.
  change (PrimFloat.is_nan 1%float) with false; rewrite Hq; cbn [orb].
  rewrite (ltb_asym _ _ H1), H1.
  change (PrimFloat.is_nan 0%float) with false; rewrite Hq; cbn [orb].
  rewrite H0; reflexivity.
Qed.

(** X16.  [updateValue] clamps the pointer's position on the track: with
    [q = (clientX - left) / width], a pointer left of the track ([q < 0])
    gives the value computed from 0, one right of it ([1 < q]) the value
    computed from 1, one inside ([0 < q < 1]) the value computed from [q];
    with the page's props the first two are 0 and 100.  Nothing is emitted
    when no callback was passed or the element is not mounted. *)
Theorem slider_value_by_position :
  forall (p : Slider.Props) (clientX : Number) (rect : Slider.Rect),
    let q := ((clientX - Slider.left rect) / Slider.width rect)%float in
    let emitted percentage :=
      if Slider.onValueChange p
      then Some [(Math_round ((Slider.min p
                               + percentage * (Slider.max p - Slider.min p))
                              / Slider.step p) * Slider.step p)%float]
      else None in
    ((q <? 0)%float = true ->
       Slider.updateValue p clientX (Some rect) = emitted 0%float) /\
    ((1 <? q)%float = true ->
       Slider.updateValue p clientX (Some rect) = emitted 1%float) /\
    ((0 <? q)%float = true -> (q <? 1)%float = true ->
       Slider.updateValue p clientX (Some rect) = emitted q) /\
    (forall v, (q <? 0)%float = true ->
       Slider.updateValue (Slider.page_props v) clientX (Some rect)
       = Some [0%float]) /\
    (forall v, (1 <? q)%float = true ->
       Slider.updateValue (Slider.page_props v) clientX (Some rect)
       = Some [100%float]) /\
    Slider.updateValue p clientX None = None.
Proof.
  intros p clientX rect q emitted.
  assert (Hu : forall p', Slider.updateValue p' clientX (Some rect)
               = if Slider.onValueChange p'
                 then Some [(Math_round ((Slider.min p'
                               + slider_percentage q
                                 * (Slider.max p' - Slider.min p'))
                              / Slider.step p') * Slider.step p')%float]
                 else None) by reflexivity.
  split; [|split; [|split; [|split; [|split]]]].
  - intros H; rewrite Hu, (percentage_left_of_track q H); reflexivity.
  - intros H; rewrite Hu, (percentage_right_of_track q H); reflexivity.
  - intros H0 H1; rewrite Hu, (percentage_inside q H0 H1); reflexivity.
  - intros v H; rewrite Hu, (percentage_left_of_track q H); reflexivity.
  - intros v H; rewrite Hu, (percentage_right_of_track q H); reflexivity.
  - reflexivity.
Qed.

Lemma slider_value_by_position_witness :
  Slider.updateValue (Slider.page_props [50%float]) 300%float
    (Some (Slider.mkRect 0%float 200%float))
  = Some [100%float].
Proof.
  pose proof (slider_value_by_position (Slider.page_props [50%float]) 300%float
                (Slider.mkRect 0%float 200%float)) as H.
  cbv zeta in H; destruct H as (_ & _ & _ & _ & H & _).
  exact (H [50%float] eq_refl).
Defined.

(** X17.  With the page's props, a pointer position that is not a number,
    as [0 / 0] on a track of width 0 with the pointer on its left edge,
    makes the slider call [onValueChange] with [[NaN]]. *)
Theorem slider_emits_nan :
  forall (v : list Number) (clientX : Number) (rect : Slider.Rect),
    PrimFloat.is_nan ((clientX - Slider.left rect) / Slider.width rect)%float = true ->
    Slider.updateValue (Slider.page_props v) clientX (Some rect)
    = Some [PrimFloat.nan].
Proof.
  intros v clientX rect H.
  change (Slider.updateValue (Slider.page_props v) clientX (Some rect))
    with (Some [(Math_round ((0 + slider_percentage
                                    ((clientX - Slider.left rect) / Slider.width rect)
                                  * (100 - 0)) / 1) * 1)%float]).
  rewrite (percentage_nan _ H); reflexivity.
Qed.

Lemma slider_emits_nan_witness :
  Slider.updateValue (Slider.page_props [50%float]) 10%float
    (Some (Slider.mkRect 10%float 0%float))
  = Some [PrimFloat.nan].
Proof. exact (slider_emits_nan [50%float] 10%float (Slider.mkRect 10%float 0%float) eq_refl). Defined.

(** ** The hook *)

(** X18.  The hook's [cleanup] is idempotent, cancels the frame request
    and stops the stream it holds and leaves the level as it is, and it
    does not clear [analyserRef]: a call of [updateAudioLevel] after
    [cleanup] still computes a level from the analyser left behind and
    requests a new frame. *)
Theorem hook_cleanup_keeps_analyser :
  forall w : Hook.World,
    Hook.cleanup (Hook.cleanup w) = Hook.cleanup w /\
    Hook.analyserRef (Hook.refs (Hook.cleanup w)) = Hook.analyserRef (Hook.refs w) /\
    Hook.audioLevel (Hook.cleanup w) = Hook.audioLevel w /\
    Hook.streamRef (Hook.refs (Hook.cleanup w)) = None /\
    Hook.animationFrameRef (Hook.refs (Hook.cleanup w)) = None /\
    (forall id, Hook.animationFrameRef (Hook.refs w) = Some id ->
                ~ In id (Hook.frames (Hook.cleanup w))) /\
    (forall s, Hook.streamRef (Hook.refs w) = Some s ->
               ~ In (stream_id s) (Hook.liveStreams (Hook.cleanup w))) /\
    (forall analyser data,
       Hook.analyserRef (Hook.refs w) = Some analyser ->
       let w' := Hook.updateAudioLevel data (Hook.cleanup w) in
       Hook.audioLevel w'
       = Meter.displayed_level
           (getByteTimeDomainData (frequencyBinCount analyser) data) /\
       Hook.animationFrameRef (Hook.refs w') = Some (Hook.nextId w) /\
       In (Hook.nextId w) (Hook.frames w')).
Proof.
  intros [lvl [ctx str an af] fr ls oc nid].
  destruct af as [id|], str as [s|], ctx as [[cid [] hint rate]|];
    (split; [reflexivity|]); (split; [reflexivity|]); (split; [reflexivity|]);
    (split; [reflexivity|]); (split; [reflexivity|]);
    (split; [cbn; intros id' E; try discriminate E; injection E as <-; apply remove_In|]);
    (split; [cbn; intros s' E; try discriminate E; injection E as <-; apply remove_In|]);
    intros analyser data; cbn; intros ->; cbn;
    (split; [reflexivity | split; [reflexivity|]]);
    apply in_or_app; right; left; reflexivity.
Qed.
